(** * TextualStyleTransfer: style-conditioned Transformer and its evaluation

    A shallow embedding of [transformer_model.py] and [evaluate.py].

    Tensors and NumPy arrays are modelled as PyTorch stores them: a size
    (list of dimensions) together with the elements in row-major order.
    Python exceptions are the [Raise] results of a small error monad.
    Learned sub-modules that a class receives through its constructor
    (decoder stack, embeddings, projection, criteria) are Section variables.
    Definitions come first; the lemmas and theorems follow. *)

From stdpp Require Import base option list gmap strings.
From Stdlib Require Import ZArith Lia.

#[local] Open Scope Z_scope.
#[local] Open Scope nat_scope.

(* ===================================================================== *)
(** ** Exceptions *)

Inductive exn : Set :=
| ValueError | KeyError | TypeError | IndexError
| RuntimeError | AssertionError | ZeroDivisionError.

Inductive result (A : Type) : Type :=
| Ok (a : A)
| Raise (e : exn).
Arguments Ok {A} a.
Arguments Raise {A} e.

#[global] Instance result_ret : MRet result := @Ok.
#[global] Instance result_bind : MBind result :=
  λ A B f m, match m with Ok a => f a | Raise e => Raise e end.
#[global] Instance result_fmap : FMap result :=
  λ A B f m, match m with Ok a => Ok (f a) | Raise e => Raise e end.

Definition raises {A} (m : result A) : Prop := ∃ e, m = Raise e.

(** Python truthiness of an optional integer ([None] and [0] are falsy). *)
Definition truthy (v : option Z) : bool :=
  match v with
  | None => false
  | Some z => negb (z =? 0)%Z
  end.

(* ===================================================================== *)
(** ** Tensors *)

Record tensor (A : Type) : Type := Tensor { shape : list nat; data : list A }.
Arguments Tensor {A} shape data.
Arguments shape {A} t.
Arguments data {A} t.

(** Number of elements of a size. *)
Definition numel_of (sh : list nat) : nat := foldr Nat.mul 1 sh.

(** [blocks n k l]: the first [n] consecutive chunks of [k] elements of [l]. *)
Fixpoint blocks {A} (n k : nat) (l : list A) : list (list A) :=
  match n with
  | 0 => []
  | S n' => take k l :: blocks n' k (drop k l)
  end.

(** Columns of a list of rows of width [m]. *)
Fixpoint transpose_rows {A} (m : nat) (rows : list (list A)) : list (list A) :=
  match m with
  | 0 => []
  | S m' => flat_map (take 1) rows :: transpose_rows m' (map (drop 1) rows)
  end.

Section TensorOps.
Context {A : Type}.

(** A tensor value is well formed when it holds as many elements as its size says. *)
Definition wf (t : tensor A) : Prop := length (data t) = numel_of (shape t).

Definition ndimension (t : tensor A) : nat := length (shape t).

Definition numel (t : tensor A) : nat := numel_of (shape t).

(** [t.size(-1)] *)
Definition size_last (t : tensor A) : result nat :=
  match last (shape t) with
  | Some n => Ok n
  | None => Raise IndexError
  end.

(** [t.unsqueeze(d)] for a non-negative [d]. *)
Definition unsqueeze (d : nat) (t : tensor A) : result (tensor A) :=
  if decide (d ≤ ndimension t)
  then Ok (Tensor (take d (shape t) ++ 1 :: drop d (shape t)) (data t))
  else Raise IndexError.

(** [t.permute(1, 0)]: only a matrix can be permuted with two axes. *)
Definition permute_1_0 (t : tensor A) : result (tensor A) :=
  match shape t with
  | [n; m] => Ok (Tensor [m; n] (concat (transpose_rows m (blocks n m (data t)))))
  | _ => Raise RuntimeError
  end.

(** [torch.cat((a, b), 1)]: both operands have the same rank (at least 2) and
    agree on every dimension but the second.  (The legacy exemption of PyTorch
    for operands of size [(0,)] is left out.) *)
Definition cat_dim1 (a b : tensor A) : result (tensor A) :=
  match shape a, shape b with
  | b1 :: n1 :: r1, b2 :: n2 :: r2 =>
      if decide (b1 = b2 ∧ r1 = r2)
      then Ok (Tensor (b1 :: (n1 + n2) :: r1)
                 (concat (zip_with app
                            (blocks b1 (n1 * numel_of r1) (data a))
                            (blocks b1 (n2 * numel_of r1) (data b)))))
      else Raise RuntimeError
  | _ :: _ :: _, _ | _, _ :: _ :: _ => Raise RuntimeError
  | _, _ => Raise IndexError
  end.

(** [t[:, :-1]] ([nidx = 2]) and [t[:, :-1, :]] ([nidx = 3]): indexing with
    more indices than dimensions is an [IndexError]. *)
Definition drop_last_dim1 (nidx : nat) (t : tensor A) : result (tensor A) :=
  match shape t with
  | b :: n :: r =>
      if decide (nidx ≤ ndimension t)
      then Ok (Tensor (b :: (n - 1) :: r)
                 (concat (map (take ((n - 1) * numel_of r))
                            (blocks b (n * numel_of r) (data t)))))
      else Raise IndexError
  | _ => Raise IndexError
  end.

(** [t[:, 1:]] ([nidx = 2]) and [t[:, 1:, :]] ([nidx = 3]). *)
Definition drop_first_dim1 (nidx : nat) (t : tensor A) : result (tensor A) :=
  match shape t with
  | b :: n :: r =>
      if decide (nidx ≤ ndimension t)
      then Ok (Tensor (b :: (n - 1) :: r)
                 (concat (map (drop (numel_of r))
                            (blocks b (n * numel_of r) (data t)))))
      else Raise IndexError
  | _ => Raise IndexError
  end.

(** [t.contiguous().view(-1, k)]: the free dimension is inferred from the
    number of elements; PyTorch refuses [k = 0] (ambiguous) and a [k] that
    does not divide the number of elements. *)
Definition view_rows (k : nat) (t : tensor A) : result (tensor A) :=
  if decide (k = 0) then Raise RuntimeError
  else if decide (numel t mod k = 0)
       then Ok (Tensor [numel t / k; k] (data t))
       else Raise RuntimeError.

(** [t.contiguous().view(-1)] *)
Definition view_flat (t : tensor A) : tensor A := Tensor [numel t] (data t).

(** [t.squeeze(0)]: a leading dimension of size one is removed. *)
Definition squeeze_0 (t : tensor A) : tensor A :=
  match shape t with
  | 1 :: r => Tensor r (data t)
  | _ => t
  end.

(** The examples of a rank-3 tensor as sequences of feature vectors. *)
Definition rows3 (t : tensor A) : list (list (list A)) :=
  match shape t with
  | [b; n; d] => map (blocks n d) (blocks b (n * d) (data t))
  | _ => []
  end.

(** The rows of a matrix. *)
Definition rows2 (t : tensor A) : list (list A) :=
  match shape t with
  | [b; n] => blocks b n (data t)
  | _ => []
  end.

(** [nn.Embedding]: row [i] of a 2-D weight table. *)
Definition embedding_row (w : tensor A) (i : Z) : result (list A) :=
  match shape w with
  | [n; d] =>
      if decide (0 ≤ i < Z.of_nat n)%Z
      then Ok (take d (drop (Z.to_nat i * d) (data w)))
      else Raise IndexError
  | _ => Raise RuntimeError
  end.

Definition Embedding_forward (w : tensor A) (idx : tensor Z) : result (tensor A) :=
  match shape w with
  | [n; d] =>
      rs ← mapM (embedding_row w) (data idx);
      Ok (Tensor (shape idx ++ [d]) (concat rs))
  | _ => Raise RuntimeError
  end.

(** The vectors that the table [w] holds for the indices [idx], one per index. *)
Definition embedding_vectors (w : tensor A) (idx : tensor Z) : list (list A) :=
  (λ i, take (default 0 (last (shape w))) (drop (Z.to_nat i * default 0 (last (shape w))) (data w)))
    <$> data idx.

End TensorOps.

(* ===================================================================== *)
(** ** transformer_model.py *)

Module Generator.
Section Generator.
Context {A : Type}.
(** [self.proj] and [F.log_softmax(_, dim=-1)] *)
Variable proj : tensor A → result (tensor A).
Variable log_softmax : tensor A → result (tensor A).

Definition forward (x : tensor A) : result (tensor A) :=
  y ← proj x; log_softmax y.

End Generator.
End Generator.

Module EncoderDecoder.
Section EncoderDecoder.
Context {A Mask : Type}.
Variable decoder : tensor A → tensor A → Mask → Mask → result (tensor A).
Variable tgt_embed : tensor Z → result (tensor A).
(** weight table of [self.style_embed] *)
Variable style_embed : tensor A.

Definition decode (memory : tensor A) (src_mask : Mask)
    (tgt : tensor Z) (tgt_mask : Mask) : result (tensor A) :=
  x ← tgt_embed tgt;
  decoder x memory src_mask tgt_mask.

Definition decode_with_style (encode_out : tensor A) (style_preds : tensor Z)
    (src_mask : Mask) (tgt : tensor Z) (tgt_mask : Mask) : result (tensor A) :=
  s ← Embedding_forward style_embed style_preds;
  s ← unsqueeze 1 s;
  memory ← cat_dim1 encode_out s;
  (* Dump last state *)
  memory ← drop_last_dim1 3 memory;
  x ← tgt_embed tgt;
  decoder x memory src_mask tgt_mask.

End EncoderDecoder.
End EncoderDecoder.

Module StyleDecoder.
Section StyleDecoder.
Context {A Mask : Type}.
Variable decoder : tensor A → tensor A → Mask → Mask → result (tensor A).
(** [self.src_embed = tgt_embed] *)
Variable src_embed : tensor Z → result (tensor A).
Variable style_embed : tensor A.
Variable generator : tensor A → result (tensor A).

Definition forward (enc_out : tensor A) (style_preds : tensor Z)
    (src_mask : Mask) (tgt : tensor Z) (tgt_mask : Mask) : result (tensor A) :=
  s ← Embedding_forward style_embed style_preds;
  add_embadding ← unsqueeze 1 s;
  add_embadding ←
    (if decide (ndimension add_embadding = 1)
     then x ← unsqueeze 0 add_embadding; unsqueeze 1 x
     else if decide (ndimension add_embadding = 2)
     then x ← permute_1_0 add_embadding; unsqueeze 0 x
     else Ok add_embadding);
  (* Concatenate the style vector at the beginning of the sequence *)
  memory ← cat_dim1 add_embadding enc_out;
  memory ← drop_last_dim1 3 memory;
  t ← src_embed tgt;
  tgt_modified ← cat_dim1 add_embadding t;
  tgt_modified ← drop_last_dim1 3 tgt_modified;
  dec_out ← decoder tgt_modified memory src_mask tgt_mask;
  generator dec_out.

End StyleDecoder.
End StyleDecoder.

(** *** Sizes of the tensors of multi-head attention

    The size of every intermediate tensor of [attention] and of
    [MultiHeadedAttention.forward]; the elements play no part in which size
    comes out or in whether PyTorch accepts the call. *)

(** [torch.broadcast_shapes], both sizes listed from the last dimension. *)
Fixpoint broadcast_rev (a b : list nat) : result (list nat) :=
  match a, b with
  | [], r | r, [] => Ok r
  | x :: a', y :: b' =>
      r ← broadcast_rev a' b';
      if decide (x = y) then Ok (x :: r)
      else if decide (x = 1) then Ok (y :: r)
      else if decide (y = 1) then Ok (x :: r)
      else Raise RuntimeError
  end.

Definition broadcast_shapes (a b : list nat) : result (list nat) :=
  r ← broadcast_rev (rev a) (rev b); Ok (rev r).

(** [x.transpose(i, j)] on a size. *)
Definition transpose_shape (i j : nat) (s : list nat) : result (list nat) :=
  match s !! i, s !! j with
  | Some x, Some y => Ok (<[i:=y]> (<[j:=x]> s))
  | _, _ => Raise IndexError
  end.

(** [x.transpose(-2, -1)] *)
Definition transpose_last2 (s : list nat) : result (list nat) :=
  if decide (2 ≤ length s)
  then transpose_shape (length s - 2) (length s - 1) s
  else Raise IndexError.

(** [torch.matmul] on sizes. *)
Definition matmul_shape (a b : list nat) : result (list nat) :=
  match rev a, rev b with
  | [], _ | _, [] => Raise RuntimeError
  | [n], [m] => if decide (n = m) then Ok [] else Raise RuntimeError
  | [n], p :: m :: bb =>
      if decide (n = m) then Ok (rev bb ++ [p]) else Raise RuntimeError
  | m :: n :: ba, [m'] =>
      if decide (m = m') then Ok (rev ba ++ [n]) else Raise RuntimeError
  | m :: n :: ba, p :: m' :: bb =>
      if decide (m = m')
      then batch ← broadcast_rev ba bb; Ok (rev batch ++ [n; p])
      else Raise RuntimeError
  end.

(** [scores.masked_fill(mask == 0, c)]: the mask is expanded to the size of
    [scores], which itself is never expanded. *)
Definition masked_fill_shape (scores mask : list nat) : result (list nat) :=
  r ← broadcast_shapes scores mask;
  if decide (r = scores) then Ok scores else Raise RuntimeError.

(** [nn.Linear(d_in, d_out)] on a size. *)
Definition linear_shape (d_in d_out : nat) (s : list nat) : result (list nat) :=
  match last s with
  | Some d => if decide (d = d_in) then Ok (removelast s ++ [d_out])
              else Raise RuntimeError
  | None => Raise RuntimeError
  end.

(** [x.view( *spec )], one entry of [spec] possibly [-1]. *)
Definition view_shape (spec : list Z) (s : list nat) : result (list nat) :=
  let known := filter (λ z, z ≠ (-1)%Z) spec in
  if decide (Exists (λ z, (z < 0)%Z) known) then Raise RuntimeError
  else
    let newsize := numel_of (Z.to_nat <$> known) in
    if decide (length known = length spec)
    then if decide (numel_of s = newsize) then Ok (Z.to_nat <$> spec)
         else Raise RuntimeError
    else if decide (length known + 1 = length spec)
    then if decide (newsize ≠ 0 ∧ numel_of s mod newsize = 0)
         then Ok ((λ z, if decide (z = (-1)%Z) then numel_of s / newsize
                        else Z.to_nat z) <$> spec)
         else Raise RuntimeError
    else Raise RuntimeError.

(** [attention(query, key, value, mask, dropout)]: the sizes of the two
    tensors it returns. *)
Definition attention_shape (query key value : list nat) (mask : option (list nat))
    : result (list nat * list nat) :=
  _ ← (match last query with Some d_k => Ok d_k | None => Raise IndexError end);
  kt ← transpose_last2 key;
  scores ← matmul_shape query kt;
  scores ← (match mask with
            | Some m => masked_fill_shape scores m
            | None => Ok scores
            end);
  let p_attn := scores in
  out ← matmul_shape p_attn value;
  Ok (out, p_attn).

Module MultiHeadedAttention.

Record t : Set := Build { d_k : Z; h : Z; d_model : Z }.

(** [__init__(h, d_model)] *)
Definition init (h d_model : Z) : result t :=
  if decide (h = 0)%Z then Raise ZeroDivisionError
  else if decide (d_model `mod` h = 0)%Z
  then if decide (d_model < 0)%Z then Raise RuntimeError (* nn.Linear *)
       else Ok (Build (d_model `div` h) h d_model)
  else Raise AssertionError.

(** [l(x).view(nbatches, -1, self.h, self.d_k).transpose(1, 2)] *)
Definition project (self : t) (nbatches : nat) (x : list nat) : result (list nat) :=
  y ← linear_shape (Z.to_nat (d_model self)) (Z.to_nat (d_model self)) x;
  y ← view_shape [Z.of_nat nbatches; (-1)%Z; h self; d_k self] y;
  transpose_shape 1 2 y.

Definition forward (self : t) (query key value : list nat)
    (mask : option (list nat)) : result (list nat) :=
  mask ← (match mask with
          | Some m =>
              if decide (1 ≤ length m) then Ok (Some (take 1 m ++ 1 :: drop 1 m))
              else Raise IndexError
          | None => Ok None
          end);
  nbatches ← (match query with n :: _ => Ok n | [] => Raise IndexError end);
  q ← project self nbatches query;
  k ← project self nbatches key;
  v ← project self nbatches value;
  '(x, _) ← attention_shape q k v mask;
  x ← transpose_shape 1 2 x;
  x ← view_shape [Z.of_nat nbatches; (-1)%Z; (h self * d_k self)%Z] x;
  linear_shape (Z.to_nat (d_model self)) (Z.to_nat (d_model self)) x.

End MultiHeadedAttention.

(* ===================================================================== *)
(** ** evaluate.py *)

(** The values [sent2str] may be handed. *)
Inductive pyobj : Type :=
| PyNdarray (a : tensor Z)
| PyTorchTensor (t : tensor Z)
| PyList (l : list Z)
| PyTuple (l : list Z)
| PyStr (s : string)
| PyNone.

(** A flat numeric sequence: a list, a tuple or a one-dimensional array or
    tensor of numbers. *)
Definition flat_numeric (o : pyobj) : Prop :=
  match o with
  | PyNdarray a | PyTorchTensor a => ndimension a = 1
  | PyList _ | PyTuple _ => True
  | PyStr _ | PyNone => False
  end.

(** Positions of [v] in [l], counted from [i]. *)
Fixpoint positions (v : Z) (l : list Z) (i : nat) : list nat :=
  match l with
  | [] => []
  | x :: l' =>
      if decide (x = v) then i :: positions v l' (S i) else positions v l' (S i)
  end.

(** [np.where(a == v)[0]]: for every element equal to [v], in row-major
    order, its index along the first axis (NumPy 1.x takes a 0-d array as
    one row). *)
Definition np_where_0 (a : tensor Z) (v : Z) : list nat :=
  (λ j, j / numel_of (tail (shape a))) <$> positions v (data a) 0.

(** [a[:k]] for [0 ≤ k]: a 0-d array cannot be indexed. *)
Definition np_take_0 (k : nat) (a : tensor Z) : result (tensor Z) :=
  match shape a with
  | [] => Raise IndexError
  | n :: r => Ok (Tensor (Nat.min k n :: r) (take (Nat.min k n * numel_of r) (data a)))
  end.

(** The truncation at the end-of-sequence id that [sent2str] and
    [tensor2text] both spell out:
<<
    end_id = np.where(sample == eos)[0]
    if len(end_id) > 1:    sample = sample[:int(end_id[0])]
    elif len(end_id) == 1: sample = sample[:int(end_id)]
>> *)
Definition truncate_at (eos : Z) (a : tensor Z) : result (tensor Z) :=
  let end_id := np_where_0 a eos in
  if decide (1 < length end_id)
  then match end_id with
       | e :: _ => np_take_0 e a
       | [] => Ok a
       end
  else if decide (length end_id = 1)
  then match end_id with
       | [e] => np_take_0 e a
       | _ => Ok a
       end
  else Ok a.

(** [for i in a]: the sub-arrays along the first axis; a 0-d array is not
    iterable. *)
Definition np_iter (a : tensor Z) : result (list (tensor Z)) :=
  match shape a with
  | [] => Raise TypeError
  | n :: r => Ok (Tensor r <$> blocks n (numel_of r) (data a))
  end.

(** [id2word[z]] for a number [z]: a missing key is a [KeyError]. *)
Definition dict_word (id2word : gmap Z string) (z : Z) : result string :=
  match id2word !! z with
  | Some w => Ok w
  | None => Raise KeyError
  end.

(** [id2word[i]] for an item [i] of an array: an array of one or more
    dimensions is not hashable. *)
Definition dict_getitem (id2word : gmap Z string) (i : tensor Z) : result string :=
  match shape i, data i with
  | [], [z] => dict_word id2word z
  | _, _ => Raise TypeError
  end.

(** [index2word[z]] for a list and a number [z]: negative indices count
    from the end. *)
Definition list_word (index2word : list string) (z : Z) : result string :=
  let n := Z.of_nat (length index2word) in
  let k := if decide (z < 0)%Z then (z + n)%Z else z in
  if decide (0 ≤ k < n)%Z
  then match index2word !! Z.to_nat k with
       | Some w => Ok w
       | None => Raise IndexError
       end
  else Raise IndexError.

(** [index2word[i]] for an item [i] of an array: only a 0-d array is an index. *)
Definition list_getitem (index2word : list string) (i : tensor Z) : result string :=
  match shape i, data i with
  | [], [z] => list_word index2word z
  | _, _ => Raise TypeError
  end.

(** The ids of [l] that stand before the first [eos]. *)
Fixpoint before_first (eos : Z) (l : list Z) : list Z :=
  match l with
  | [] => []
  | x :: l' => if decide (x = eos) then [] else x :: before_first eos l'
  end.

Definition is_ndarray (o : pyobj) : Prop :=
  match o with
  | PyNdarray _ => True
  | _ => False
  end.

(** [" ".join(words)] *)
Definition join (words : list string) : string := String.concat " " words.

Definition sent2str (sent_as_np : pyobj) (id2word : gmap Z string)
    (eos_id : option Z) : result string :=
  match sent_as_np with
  | PyNdarray a =>
      (* if eos_id: *)
      a ← (match eos_id with
           | Some eos => if truthy eos_id then truncate_at eos a else Ok a
           | None => Ok a
           end);
      items ← np_iter a;
      words ← mapM (dict_getitem id2word) items;
      Ok (join words)
  | _ => Raise ValueError
  end.

Record Vocab : Type := { itos : list string; stoi : string → Z }.

Definition tensor2text (vocab : Vocab) (t : tensor Z) : result (list string) :=
  let index2word := itos vocab in
  let eos_idx := stoi vocab "<eos>" in
  samples ← np_iter t;
  mapM (λ sample,
          sample ← truncate_at eos_idx sample;
          items ← np_iter sample;
          words ← mapM (list_getitem index2word) items;
          Ok (join words))
       samples.

(** [(~labels.bool()).long()] *)
Definition negate_label (x : Z) : Z := if decide (x = 0)%Z then 1%Z else 0%Z.

Definition negate_labels (labels : tensor Z) : tensor Z :=
  Tensor (shape labels) (negate_label <$> data labels).

(** [labels.tolist()] followed by [+=]: the items along the first axis; the
    [tolist()] of a 0-d tensor is a number, which [+=] cannot extend a list with. *)
Definition tolist_items (t : tensor Z) : result (list (tensor Z)) := np_iter t.

Record Batch : Type := { text : tensor Z; label : tensor Z }.

Section ArgMax.
Context {A : Type}.
(** strict order of the scores *)
Variable lt : A → A → bool.

(** Index of the first maximal element. *)
Fixpoint argmax_from (best : A) (bi i : nat) (l : list A) : nat :=
  match l with
  | [] => bi
  | x :: l' =>
      if lt best x then argmax_from x i (S i) l' else argmax_from best bi (S i) l'
  end.

Definition argmax_list (l : list A) : Z :=
  match l with
  | [] => 0%Z
  | x :: l' => Z.of_nat (argmax_from x 0 1 l')
  end.

(** [torch.argmax(t, -1)]: a 0-d tensor gives index 0; an empty last
    dimension cannot be reduced. *)
Definition argmax_last (t : tensor A) : result (tensor Z) :=
  match last (shape t) with
  | None => Ok (Tensor [] [0%Z])
  | Some 0 => Raise IndexError
  | Some v =>
      let outer := removelast (shape t) in
      Ok (Tensor outer (argmax_list <$> blocks (numel_of outer) v (data t)))
  end.

Definition greedy_decode_sent (preds : tensor A) (id2word : gmap Z string)
    (eos_id : option Z) : result (string * tensor Z) :=
  preds ← argmax_last preds;
  let decoded_sent := PyNdarray (squeeze_0 preds) in
  decoded_sent ← sent2str decoded_sent id2word eos_id;
  Ok (decoded_sent, preds).

End ArgMax.

Section GenerateSentences.
Context {A Mask : Type}.
Variable lt : A → A → bool.
Variable model_gen : tensor Z → Mask → tensor Z → result (tensor A).
(** [make_masks(src, trg, device)] of the data module *)
Variable make_masks : tensor Z → tensor Z → result (Mask * Mask).

Definition Sentences : Type := list string * list string * list (tensor Z).

(** The body of the loop of [generate_sentences]. *)
Definition generate_batch (vocab : Vocab) (batch : Batch) (acc : Sentences)
    : result Sentences :=
  let '(test_generated_sentences, test_original_sentences, test_original_labels) := acc in
  let src := text batch in
  let labels := label batch in
  '(src_mask, _) ← make_masks src src;
  (* Negate labels *)
  let neg_labels := negate_labels labels in
  preds ← model_gen src src_mask neg_labels;
  preds ← argmax_last lt preds;
  gen ← tensor2text vocab preds;
  org ← tensor2text vocab src;
  labs ← tolist_items labels;
  Ok (test_generated_sentences ++ gen, test_original_sentences ++ org,
      test_original_labels ++ labs).

Fixpoint generate_loop (vocab : Vocab) (limit : option Z) (i : nat)
    (data_iter : list Batch) (acc : Sentences) : result Sentences :=
  match data_iter with
  | [] => Ok acc
  | batch :: rest =>
      acc ← generate_batch vocab batch acc;
      if truthy limit && bool_decide (Some (Z.of_nat i) = (λ l, l - 1)%Z <$> limit)
      then Ok acc
      else generate_loop vocab limit (S i) rest acc
  end.

Definition generate_sentences (data_iter : list Batch) (vocab : Vocab)
    (limit : option Z) : result Sentences :=
  generate_loop vocab limit 0 data_iter ([], [], []).

(** The loop body run on each of [batches] in turn. *)
Fixpoint generate_batches (vocab : Vocab) (batches : list Batch)
    (acc : Sentences) : result Sentences :=
  match batches with
  | [] => Ok acc
  | batch :: rest =>
      acc ← generate_batch vocab batch acc; generate_batches vocab rest acc
  end.

(** The batches whose loop body runs: the first [limit] of them when the
    limit is positive, else all of them. *)
Definition generated (limit : option Z) (data_iter : list Batch) : list Batch :=
  match limit with
  | Some l => if decide (0 < l)%Z then take (Z.to_nat l) data_iter else data_iter
  | None => data_iter
  end.

End GenerateSentences.

Section Evaluate.
Context {A Mask Loss AccuracyRec AccuracyCls : Type}.
Variable model_enc : tensor Z → Mask → result (tensor A).
Variable model_cls : tensor A → result (tensor A).
Variable model_dec :
  tensor A → tensor Z → Mask → tensor Z → Mask → result (tensor A).
Variable cls_criteria : tensor A → tensor Z → result (tensor A).
Variable seq2seq_criteria : tensor A → tensor Z → result (tensor A).
Variable ent_criteria : tensor A → result (tensor A).
Variable make_masks : tensor Z → tensor Z → result (Mask * Mask).
(** The running metrics of the utils module: constructor, [update] and
    [__call__] of [Loss], [AccuracyRec] and [AccuracyCls]. *)
Variable Loss_new : Loss.
Variable Loss_update : Loss → tensor A → Loss.
Variable Loss_call : Loss → result A.
Variable AccuracyRec_new : AccuracyRec.
Variable AccuracyRec_update : AccuracyRec → tensor A → tensor Z → AccuracyRec.
Variable AccuracyRec_call : AccuracyRec → result A.
Variable AccuracyCls_new : AccuracyCls.
Variable AccuracyCls_update : AccuracyCls → tensor A → tensor Z → AccuracyCls.
Variable AccuracyCls_call : AccuracyCls → result A.

Record Metrics : Type := {
  cls_running_loss : Loss;
  rec_running_loss : Loss;
  ent_running_loss : Loss;
  rec_acc : AccuracyRec;
  cls_acc : AccuracyCls
}.

Definition Metrics_new : Metrics :=
  {| cls_running_loss := Loss_new; rec_running_loss := Loss_new;
     ent_running_loss := Loss_new;
     rec_acc := AccuracyRec_new; cls_acc := AccuracyCls_new |}.

(** The body of the loop of [evaluate]. *)
Definition evaluate_batch (batch : Batch) (m : Metrics) : result Metrics :=
  (* Prepare batch *)
  let src := text batch in
  let labels := label batch in
  '(src_mask, trg_mask) ← make_masks src src;
  (* Classifier loss *)
  encode_out ← model_enc src src_mask;
  cls_preds ← model_cls encode_out;
  cls_loss ← cls_criteria cls_preds labels;
  let cls_running_loss' := Loss_update (cls_running_loss m) cls_loss in
  (* Rec loss *)
  preds ← model_dec encode_out labels src_mask src trg_mask;
  v ← size_last preds;
  preds_flat ← view_rows v preds;
  rec_loss ← seq2seq_criteria preds_flat (view_flat src);
  let rec_running_loss' := Loss_update (rec_running_loss m) rec_loss in
  (* Entropy loss *)
  ent_loss ← ent_criteria cls_preds;
  let ent_running_loss' := Loss_update (ent_running_loss m) ent_loss in
  (* Accuracy *)
  preds ← drop_first_dim1 3 preds;
  v ← size_last preds;
  preds ← view_rows v preds;
  src ← drop_last_dim1 2 src;
  let src := view_flat src in
  Ok {| cls_running_loss := cls_running_loss';
        rec_running_loss := rec_running_loss';
        ent_running_loss := ent_running_loss';
        rec_acc := AccuracyRec_update (rec_acc m) preds src;
        cls_acc := AccuracyCls_update (cls_acc m) cls_preds labels |}.

(** [for i, batch in enumerate(data_iter)] with its guarded [break];
    [cap] is [params.TEST_MAX_BATCH_SIZE]. *)
Fixpoint evaluate_loop (cap : option Z) (i : nat) (data_iter : list Batch)
    (m : Metrics) : result Metrics :=
  match data_iter with
  | [] => Ok m
  | batch :: rest =>
      if truthy cap && bool_decide (Some (Z.of_nat i) = cap)
      then Ok m
      else m ← evaluate_batch batch m; evaluate_loop cap (S i) rest m
  end.

(** The metrics when the loop of [evaluate] is left. *)
Definition evaluate_metrics (data_iter : list Batch) (cap : option Z)
    : result Metrics :=
  evaluate_loop cap 0 data_iter Metrics_new.

(** [evaluate]: the two [logging.info] calls read every metric, the
    reconstruction accuracy is returned. *)
Definition evaluate (data_iter : list Batch) (cap : option Z)
    : result AccuracyRec :=
  m ← evaluate_metrics data_iter cap;
  _ ← Loss_call (cls_running_loss m);
  _ ← Loss_call (rec_running_loss m);
  _ ← Loss_call (ent_running_loss m);
  _ ← AccuracyCls_call (cls_acc m);
  _ ← AccuracyRec_call (rec_acc m);
  Ok (rec_acc m).

(** The loop body run on each of [batches] in turn. *)
Fixpoint evaluate_batches (batches : list Batch) (m : Metrics) : result Metrics :=
  match batches with
  | [] => Ok m
  | batch :: rest => m ← evaluate_batch batch m; evaluate_batches rest m
  end.

(** The batches whose loop body runs: the first [cap] of them when the cap
    is positive, else all of them. *)
Definition evaluated (cap : option Z) (data_iter : list Batch) : list Batch :=
  match cap with
  | Some c => if decide (0 < c)%Z then take (Z.to_nat c) data_iter else data_iter
  | None => data_iter
  end.

End Evaluate.

(** The ids of a flat array that [sent2str] turns into text: those before
    the first end-of-sequence id when that id is truthy, else all of them. *)
Definition kept_ids (eos_id : option Z) (l : list Z) : list Z :=
  match eos_id with
  | Some eos => if truthy eos_id then before_first eos l else l
  | None => l
  end.

(** The text of one row as [tensor2text] builds it. *)
Definition row2text (vocab : Vocab) (row : list Z) : result string :=
  words ← mapM (list_word (itos vocab)) (before_first (stoi vocab "<eos>") row);
  Ok (join words).

Module StyleTransformer.
Section StyleTransformer.
Context {A : Type}.
(** weight table of [self.style_embed] *)
Variable style_embed : tensor A.

Definition encode_style (style_labels : tensor Z) : result (tensor A) :=
  s ← Embedding_forward style_embed style_labels;
  style_embadding ← unsqueeze 1 s;
  if decide (ndimension style_embadding = 1)
  then x ← unsqueeze 0 style_embadding; unsqueeze 1 x
  else if decide (ndimension style_embadding = 2)
  then x ← permute_1_0 style_embadding; unsqueeze 0 x
  else Ok style_embadding.

End StyleTransformer.
End StyleTransformer.

(** *** Sizes through the encoder and decoder stacks

    As for multi-head attention, the modules below are followed on the
    sizes of their tensors; a module is given by the hyper-parameters its
    constructor stores. *)

(** [x.mean(-1, keepdim=True)] and [x.std(-1, keepdim=True)] *)
Definition reduce_last_keepdim (s : list nat) : list nat :=
  match s with
  | [] => []
  | _ => removelast s ++ [1]
  end.

Module LayerNorm.

Record t : Set := Build { features : nat }.

Definition forward (self : t) (x : list nat) : result (list nat) :=
  let mean := reduce_last_keepdim x in
  let std := reduce_last_keepdim x in
  (* self.a_2 * (x - mean) / (std + self.eps) + self.b_2 *)
  c ← broadcast_shapes x mean;
  n ← broadcast_shapes [features self] c;
  q ← broadcast_shapes n std;
  broadcast_shapes q [features self].

End LayerNorm.

Module SublayerConnection.

Record t : Set := Build { size : nat }.

(** [x + self.dropout(sublayer(self.norm(x)))] *)
Definition forward (self : t) (x : list nat)
    (sublayer : list nat → result (list nat)) : result (list nat) :=
  n ← LayerNorm.forward (LayerNorm.Build (size self)) x;
  y ← sublayer n;
  broadcast_shapes x y.

End SublayerConnection.

Module PositionwiseFeedForward.

Record t : Set := Build { d_model : nat; d_ff : nat }.

(** [self.w_2(self.dropout(F.relu(self.w_1(x))))] *)
Definition forward (self : t) (x : list nat) : result (list nat) :=
  y ← linear_shape (d_model self) (d_ff self) x;
  linear_shape (d_ff self) (d_model self) y.

End PositionwiseFeedForward.

(** [clones(module, N)] *)
Definition clones {M : Type} (module : M) (N : nat) : list M := replicate N module.

Module EncoderLayer.

Record t : Set := Build {
  size : nat;
  self_attn : MultiHeadedAttention.t;
  feed_forward : PositionwiseFeedForward.t
}.

Definition forward (self : t) (x : list nat) (mask : option (list nat))
    : result (list nat) :=
  let sublayer := SublayerConnection.Build (size self) in
  x ← SublayerConnection.forward sublayer x
         (λ x, MultiHeadedAttention.forward (self_attn self) x x x mask);
  SublayerConnection.forward sublayer x
    (PositionwiseFeedForward.forward (feed_forward self)).

End EncoderLayer.

Module DecoderLayer.

Record t : Set := Build {
  size : nat;
  self_attn : MultiHeadedAttention.t;
  src_attn : MultiHeadedAttention.t;
  feed_forward : PositionwiseFeedForward.t
}.

Definition forward (self : t) (x memory : list nat)
    (src_mask tgt_mask : option (list nat)) : result (list nat) :=
  let sublayer := SublayerConnection.Build (size self) in
  let m := memory in
  x ← SublayerConnection.forward sublayer x
         (λ x, MultiHeadedAttention.forward (self_attn self) x x x tgt_mask);
  x ← SublayerConnection.forward sublayer x
         (λ x, MultiHeadedAttention.forward (src_attn self) x m m src_mask);
  SublayerConnection.forward sublayer x
    (PositionwiseFeedForward.forward (feed_forward self)).

End DecoderLayer.

Module BasicEncoder.

Record t : Set := Build { layers : list EncoderLayer.t; norm : LayerNorm.t }.

Definition init (layer : EncoderLayer.t) (N : nat) : t :=
  Build (clones layer N) (LayerNorm.Build (EncoderLayer.size layer)).

(** [for layer in self.layers: x = layer(x, mask)] *)
Fixpoint run (layers : list EncoderLayer.t) (x : list nat)
    (mask : option (list nat)) : result (list nat) :=
  match layers with
  | [] => Ok x
  | layer :: rest => x ← EncoderLayer.forward layer x mask; run rest x mask
  end.

Definition forward (self : t) (x : list nat) (mask : option (list nat))
    : result (list nat) :=
  x ← run (layers self) x mask;
  LayerNorm.forward (norm self) x.

End BasicEncoder.

Module BasicDecoder.

Record t : Set := Build { layers : list DecoderLayer.t; norm : LayerNorm.t }.

Definition init (layer : DecoderLayer.t) (N : nat) : t :=
  Build (clones layer N) (LayerNorm.Build (DecoderLayer.size layer)).

(** [for layer in self.layers: x = layer(x, memory, src_mask, tgt_mask)] *)
Fixpoint run (layers : list DecoderLayer.t) (x memory : list nat)
    (src_mask tgt_mask : option (list nat)) : result (list nat) :=
  match layers with
  | [] => Ok x
  | layer :: rest =>
      x ← DecoderLayer.forward layer x memory src_mask tgt_mask;
      run rest x memory src_mask tgt_mask
  end.

Definition forward (self : t) (x memory : list nat)
    (src_mask tgt_mask : option (list nat)) : result (list nat) :=
  x ← run (layers self) x memory src_mask tgt_mask;
  LayerNorm.forward (norm self) x.

End BasicDecoder.

Module PositionalEncoding.

(** The size of the buffer [pe]: [(1, max_len, d_model)]. *)
Record t : Set := Build { max_len : nat; d_model : nat }.

(** [value] assigned to a slice of size [target]: it is expanded to that size. *)
Definition setitem_shape (target value : list nat) : result unit :=
  r ← broadcast_shapes target value;
  if decide (r = target) then Ok tt else Raise RuntimeError.

(** [__init__(d_model, dropout, max_len)], for a [dropout] that
    [nn.Dropout] accepts (a probability); the sizes of [pe], [position] and
    [div_term] and of the two slices that are assigned. *)
Definition init (d_model max_len : nat) : result t :=
  let pe := [max_len; d_model] in
  let position := [max_len; 1] in
  (* torch.arange(0.0, d_model, 2) * -(math.log(10000.0) / d_model) *)
  div_term ← (if decide (d_model = 0) then Raise ZeroDivisionError
              else Ok [(d_model + 1) / 2]);
  (* pe[:, 0::2] = torch.sin(position * div_term) *)
  s ← broadcast_shapes position div_term;
  _ ← setitem_shape [max_len; (d_model + 1) / 2] s;
  (* pe[:, 1::2] = torch.cos(position * div_term) *)
  c ← broadcast_shapes position div_term;
  _ ← setitem_shape [max_len; d_model / 2] c;
  Ok (Build max_len d_model).

(** [x + self.pe[:, :x.size(1)]], then dropout *)
Definition forward (self : t) (x : list nat) : result (list nat) :=
  match x with
  | _ :: l :: _ =>
      broadcast_shapes x [1; Nat.min l (max_len self); d_model self]
  | _ => Raise IndexError
  end.

End PositionalEncoding.

(** *** test_random_samples *)

(** [{v: k for k, v in word2id.items()}] over the items of [word2id], in
    their order: a later item replaces an earlier one with the same id. *)
Definition invert_dict (items : list (string * Z)) : gmap Z string :=
  foldl (λ m kv, <[kv.2 := kv.1]> m) ∅ items.

(** [t[0, ...]] *)
Definition select_0 {A} (t : tensor A) : result (tensor A) :=
  match shape t with
  | [] => Raise IndexError
  | n :: r =>
      if decide (n = 0) then Raise IndexError
      else Ok (Tensor r (take (numel_of r) (data t)))
  end.

(** [t.item()] *)
Definition item {A} (t : tensor A) : result A :=
  match data t with
  | [x] => Ok x
  | _ => Raise ValueError
  end.

(** [torch.argmax(t)] over all elements *)
Definition argmax_all {A} (lt : A → A → bool) (t : tensor A) : result Z :=
  match data t with
  | [] => Raise IndexError
  | l => Ok (argmax_list lt l)
  end.

(** What ends a call of [test_random_samples] early: an exception of the
    steps above, or the read of a local variable that was never bound. *)
Inductive test_exn : Set :=
| PyExn (e : exn)
| UnboundLocalError.

Section TestRandomSamples.
Context {A Mask : Type}.
Variable lt : A → A → bool.
Variable make_masks : tensor Z → tensor Z → result (Mask * Mask).
(** [model_gen] is called on token ids or, with [src_embed], on embeddings. *)
Variable model_gen : tensor Z + tensor A → Mask → tensor Z → result (tensor A).
(** [model_cls] is called on decoded ids or embeddings, with or without a mask. *)
Variable model_cls : tensor Z + tensor A → option Mask → result (tensor A).
(** [preds_embedding_cosine_similarity(preds, model_gen.src_embed)] of utils *)
Variable preds_embedding_cosine_similarity : tensor A → result (tensor A).
(** The items of [TEXT.vocab.stoi] and the id it gives for ["<eos>"]. *)
Variable word2id : list (string * Z).
Variable eos_id : Z.
Variable src_embed : option (tensor Z → result (tensor A)).
Variable decode_func :
  option (tensor A → gmap Z string → option Z → result (string * tensor Z)).
Variable transfer_style trans_cls embed_preds : bool.

(** The loop body up to the first log line. *)
Definition sample_original (batch : Batch)
    : result (string * string * tensor A * Mask) :=
  let id2word := invert_dict word2id in
  (* Prepare batch *)
  src ← select_0 (text batch);
  labels ← select_0 (label batch);
  src ← unsqueeze 0 src;
  labels ← unsqueeze 0 labels;
  '(src_mask, _) ← make_masks src src;
  let true_labels := labels in
  (* Logical not on labels if transfer_style is set *)
  let labels := if transfer_style then negate_labels labels else labels in
  preds ← (match src_embed with
           | Some embed => embeds ← embed src; model_gen (inr embeds) src_mask labels
           | None => model_gen (inl src) src_mask labels
           end);
  let sent_as_list := PyNdarray (squeeze_0 src) in
  src_sent ← sent2str sent_as_list id2word (Some eos_id);
  l ← item true_labels;
  let src_label := if decide (l = 1%Z) then "pos" else "neg" in
  Ok (src_sent, src_label, preds, src_mask).

(** The branch [if decode_func:] of the loop body: the lines it logs. *)
Definition sample_predicted
    (decode : tensor A → gmap Z string → option Z → result (string * tensor Z))
    (preds : tensor A) (src_mask : Mask) : result (list string) :=
  let id2word := invert_dict word2id in
  '(dec_sent, decoded) ← decode preds id2word (Some eos_id);
  decoded ← (match src_embed with
             | Some embed => inr <$> embed decoded
             | None => Ok (inl decoded)
             end);
  cls_preds ← (if trans_cls then model_cls decoded (Some src_mask)
               else model_cls decoded None);
  best ← argmax_all lt cls_preds;
  let pred_label := if decide (best = 1%Z) then "pos" else "neg" in
  Ok ((if transfer_style then ["Style transfer output:"] else [])
      ++ ["Predicted: text: " +:+ dec_sent;
          "Predicted: class: " +:+ pred_label]).

(** One turn of the loop: the lines logged and the exception, if any. *)
Definition sample (batch : Batch) : list string * option test_exn :=
  match sample_original batch with
  | Raise e => ([], Some (PyExn e))
  | Ok (src_sent, src_label, preds, src_mask) =>
      let log := ["Original: text: " +:+ src_sent;
                  "Original: class: " +:+ src_label] in
      match (if embed_preds then preds_embedding_cosine_similarity preds
             else Ok preds) with
      | Raise e => (log, Some (PyExn e))
      | Ok preds =>
          match decode_func with
          | Some decode =>
              match sample_predicted decode preds src_mask with
              | Raise e => (log, Some (PyExn e))
              | Ok lines => (log ++ lines ++ ["
"], None)
              end
          | None =>
              (* logging.info('Predicted: class: {}'.format(pred_label)) *)
              (log, Some UnboundLocalError)
          end
      end
  end.

Fixpoint test_loop (num_samples : Z) (data_iter : list Batch)
    : list string * option test_exn :=
  match data_iter with
  | [] => ([], None)
  | batch :: rest =>
      if decide (num_samples = 0)%Z then ([], None)
      else match sample batch with
           | (log, Some e) => (log, Some e)
           | (log, None) =>
               let '(log', r) := test_loop (num_samples - 1) rest in
               (log ++ log', r)
           end
  end.

Definition test_random_samples (data_iter : list Batch) (num_samples : Z)
    : list string * option test_exn :=
  test_loop num_samples data_iter.

End TestRandomSamples.

(* ===================================================================== *)
(** ** Sample data for the examples *)

Module Sample.

(** A small id-to-token dict. *)
Definition id2word : gmap Z string :=
  list_to_map [(0, "w0"); (2, "w2"); (3, "w3"); (4, "w4"); (7, "w7"); (9, "w9")]%Z.

Definition vocab : Vocab :=
  {| itos := ["<unk>"; "<pad>"; "<eos>"; "good"; "bad"; "food"];
     stoi := λ w, if decide (w = "<eos>") then 2%Z else 0%Z |}.

(** A model of dimension 2 with integer scores; two styles. *)
Definition style_embed : tensor Z := Tensor [2; 2] [10; 11; 20; 21]%Z.

Definition src_embed (t : tensor Z) : result (tensor Z) :=
  Ok (Tensor (shape t ++ [2]) (flat_map (λ z, [z; (z + 1)%Z]) (data t))).

(** A decoder stack that hands back what it reads from the memory and the
    target, step by step. *)
Definition decoder (x memory : tensor Z) (src_mask tgt_mask : unit)
    : result (tensor Z) :=
  Ok (Tensor (shape x) (zip_with Z.add (data x) (data memory))).

Definition proj (x : tensor Z) : result (tensor Z) := Ok x.
Definition log_softmax (x : tensor Z) : result (tensor Z) := Ok x.

Definition enc_out : tensor Z := Tensor [1; 2; 2] [1; 2; 3; 4]%Z.
Definition style_preds : tensor Z := Tensor [1] [1]%Z.
Definition tgt : tensor Z := Tensor [1; 2] [5; 3]%Z.

(** One batch of one sentence of two tokens, of style 1. *)
Definition batch0 : Batch :=
  {| text := Tensor [1; 2] [5; 3]%Z; label := Tensor [1] [1]%Z |}.

Definition make_masks (src trg : tensor Z) : result (unit * unit) := Ok (tt, tt).

Definition model_enc (src : tensor Z) (src_mask : unit) : result (tensor Z) :=
  src_embed src.

Definition model_cls (enc : tensor Z) : result (tensor Z) :=
  Ok (Tensor [hd 0 (shape enc); 2] (replicate (hd 0 (shape enc) * 2) 0%Z)).

Definition model_dec : tensor Z → tensor Z → unit → tensor Z → unit
                       → result (tensor Z) :=
  StyleDecoder.forward decoder src_embed style_embed
    (Generator.forward proj log_softmax).

Definition criteria (preds : tensor Z) (target : tensor Z) : result (tensor Z) :=
  Ok (Tensor [] [Z.of_nat (length (data target))]).

Definition ent_criteria (preds : tensor Z) : result (tensor Z) :=
  Ok (Tensor [] [0%Z]).

(** Modelled from the spec: the running metrics of the utils module, which
    is not part of the sources, as the append-only accumulators of
    spec §5; a metric records every observation it is updated with. *)
Definition Loss : Type := list (tensor Z).
Definition Loss_update (l : Loss) (x : tensor Z) : Loss := l ++ [x].
Definition Accuracy : Type := list (tensor Z * tensor Z).
Definition Accuracy_update (a : Accuracy) (preds : tensor Z) (target : tensor Z)
    : Accuracy := a ++ [(preds, target)].

Definition evaluate_batch : Batch → Metrics → result Metrics :=
  evaluate_batch model_enc model_cls model_dec criteria criteria ent_criteria
    make_masks Loss_update Accuracy_update Accuracy_update.

Definition evaluate_metrics : list Batch → option Z → result Metrics :=
  evaluate_metrics model_enc model_cls model_dec criteria criteria ent_criteria
    make_masks ([] : Loss) Loss_update ([] : Accuracy) Accuracy_update
    ([] : Accuracy) Accuracy_update.

(** A generator that scores token 3 highest at every position. *)
Definition model_gen (src : tensor Z) (src_mask : unit) (labels : tensor Z)
    : result (tensor Z) :=
  Ok (Tensor (shape src ++ [6])
        (flat_map (λ _, [0; 0; 0; 1; 0; 0]%Z) (data src))).

Definition generate_sentences : list Batch → Vocab → option Z → result Sentences :=
  generate_sentences Z.ltb model_gen make_masks.

End Sample.

Module SampleTest.

Definition word2id : list (string * Z) :=
  [("<unk>", 0); ("<pad>", 1); ("<eos>", 2); ("good", 3); ("bad", 4);
   ("food", 5)]%Z.

Definition model_gen (x : tensor Z + tensor Z) (src_mask : unit)
    (labels : tensor Z) : result (tensor Z) :=
  match x with
  | inl src => Sample.model_gen src src_mask labels
  | inr embeds => Ok embeds
  end.

(** A classifier that always scores class 1 highest. *)
Definition model_cls (decoded : tensor Z + tensor Z) (src_mask : option unit)
    : result (tensor Z) :=
  Ok (Tensor [1; 2] [0; 1]%Z).

Definition test_random_samples
    (decode_func : option (tensor Z → gmap Z string → option Z
                           → result (string * tensor Z)))
    : list Batch → Z → list string * option test_exn :=
  test_random_samples Z.ltb Sample.make_masks model_gen model_cls Ok
    word2id 2%Z None decode_func true false false.

End SampleTest.
(* ===================================================================== *)
(** ** Lemmas on the row-major layout *)

Section BlocksLemmas.
Context {A : Type}.
Implicit Types (l : list A) (xs : list (list A)).

Lemma length_blocks n k l : length (blocks n k l) = n.
Proof. revert l. induction n as [|n IH]; intros l; simpl; [done|]. by rewrite IH. Qed.

Lemma length_concat_blocks xs k :
  Forall (λ x, length x = k) xs → length (concat xs) = length xs * k.
Proof.
  induction 1 as [|x xs Hx _ IH]; simpl; [done|]. rewrite length_app. lia.
Qed.

Lemma blocks_concat_app xs k l :
  Forall (λ x, length x = k) xs → blocks (length xs) k (concat xs ++ l) = xs.
Proof.
  induction 1 as [|x xs Hx _ IH]; simpl; [done|].
  rewrite <- app_assoc, take_app_length', drop_app_length' by done.
  by rewrite IH.
Qed.

Lemma blocks_concat xs k :
  Forall (λ x, length x = k) xs → blocks (length xs) k (concat xs) = xs.
Proof.
  intros H. rewrite <- (app_nil_r (concat xs)). by apply blocks_concat_app.
Qed.

Lemma concat_blocks n k l : concat (blocks n k l) = take (n * k) l.
Proof.
  revert l. induction n as [|n IH]; intros l; simpl; [done|].
  rewrite IH. apply take_take_drop.
Qed.

Lemma concat_blocks_all n k l : length l = n * k → concat (blocks n k l) = l.
Proof. intros H. rewrite concat_blocks. apply take_ge. lia. Qed.

Lemma Forall_length_blocks n k l :
  n * k ≤ length l → Forall (λ x, length x = k) (blocks n k l).
Proof.
  revert l. induction n as [|n IH]; intros l Hl; simpl; constructor.
  - rewrite length_take. lia.
  - apply IH. rewrite length_drop. lia.
Qed.

Lemma blocks_take n k l : blocks n k (take (n * k) l) = blocks n k l.
Proof.
  revert l. induction n as [|n IH]; intros l; simpl; [done|].
  rewrite take_take, Nat.min_l by lia. f_equal.
  rewrite <- (IH (drop k l)). f_equal.
  by rewrite take_drop_commute.
Qed.

Lemma removelast_blocks n k l : removelast (blocks (S n) k l) = blocks n k l.
Proof.
  revert l. induction n as [|n IH]; intros l; [done|].
  change (removelast (take k l :: blocks (S n) k (drop k l))
          = take k l :: blocks n k (drop k l)).
  by rewrite <- IH.
Qed.

Lemma tail_blocks n k l : tail (blocks (S n) k l) = blocks n k (drop k l).
Proof. done. Qed.

End BlocksLemmas.

Section BlocksReshape.
Context {A : Type}.
Implicit Types (l : list A) (xs : list (list A)).

Lemma blocks_add n m k l :
  blocks (n + m) k l = blocks n k l ++ blocks m k (drop (n * k) l).
Proof.
  revert l. induction n as [|n IH]; intros l; simpl; [done|].
  rewrite IH, drop_drop. done.
Qed.

(** Chunking all at once is chunking example by example. *)
Lemma blocks_mul b n k l :
  blocks (b * n) k l = concat (map (blocks n k) (blocks b (n * k) l)).
Proof.
  revert l. induction b as [|b IH]; intros l; simpl; [done|].
  rewrite blocks_add, IH. f_equal. by rewrite blocks_take.
Qed.

Lemma blocks_drop_first n k l :
  blocks (n - 1) k (drop k l) = tail (blocks n k l).
Proof. destruct n as [|n]; simpl; [done|]. by rewrite Nat.sub_0_r. Qed.

Lemma take_removelast l : take (length l - 1) l = removelast l.
Proof.
  induction l as [|x [|y l] IH]; try done.
  change (removelast (x :: y :: l)) with (x :: removelast (y :: l)).
  rewrite <- IH. simpl. by rewrite Nat.sub_0_r.
Qed.

Lemma blocks_singletons l : blocks (length l) 1 l = (λ x, [x]) <$> l.
Proof. induction l as [|x l IH]; simpl; [done|]. by rewrite drop_0, IH. Qed.

End BlocksReshape.

Lemma bind_Ok {A B} (a : A) (f : A → result B) : (Ok a ≫= f) = f a.
Proof. done. Qed.

Lemma mapM_Ok {A B} (f : A → result B) (g : A → B) (l : list A) :
  Forall (λ x, f x = Ok (g x)) l → mapM f l = Ok (g <$> l).
Proof.
  induction 1 as [|x l Hx _ IH]; simpl; [done|].
  by rewrite Hx, bind_Ok, IH.
Qed.

Section TensorLemmas.
Context {A : Type}.
Implicit Types (t w : tensor A) (v : list A) (xs ys : list (list A)).

Lemma tensor_eta t : Tensor (shape t) (data t) = t.
Proof. by destruct t. Qed.

Lemma map_take_zip_with_app k xs ys :
  Forall (λ x, length x = k) xs → length xs ≤ length ys →
  map (take k) (zip_with app xs ys) = xs.
Proof.
  intros H. revert ys. induction H as [|x xs Hx _ IH]; intros [|y ys] Hl;
    simpl in *; try done; try lia.
  rewrite take_app_length' by done. f_equal. apply IH. lia.
Qed.

Lemma Forall_length_zip_with_app k1 k2 xs ys :
  Forall (λ x, length x = k1) xs → Forall (λ y, length y = k2) ys →
  Forall (λ z, length z = k1 + k2) (zip_with app xs ys).
Proof.
  intros H. revert ys. induction H as [|x xs Hx _ IH]; intros ys Hys;
    destruct Hys as [|y ys Hy Hys]; simpl; constructor; auto.
  rewrite length_app. lia.
Qed.

Lemma blocks_prepend_drop_last n d v l :
  length v = d →
  blocks n d (take (n * d) (v ++ l)) = removelast (v :: blocks n d l).
Proof.
  intros Hv. rewrite blocks_take. destruct n as [|n]; [done|].
  change (blocks (S n) d (v ++ l))
    with (take d (v ++ l) :: blocks n d (drop d (v ++ l))).
  rewrite take_app_length', drop_app_length' by done.
  change (removelast (v :: blocks (S n) d l))
    with (v :: removelast (blocks (S n) d l)).
  by rewrite removelast_blocks.
Qed.

Lemma map_blocks_prepend_drop_last n d xs ys :
  Forall (λ y, length y = d) ys →
  map (blocks n d) (map (take (n * d)) (zip_with app ys xs))
  = zip_with (λ v row, removelast (v :: row)) ys (map (blocks n d) xs).
Proof.
  intros H. revert xs. induction H as [|y ys Hy _ IH]; intros [|x xs];
    try done.
  cbn [zip_with map]. rewrite blocks_prepend_drop_last by done.
  f_equal. apply IH.
Qed.

Lemma blocks_append_last n d (x y : list A) :
  length x = n * d → length y = d →
  blocks (n + 1) d (x ++ y) = blocks n d x ++ [y].
Proof.
  revert x. induction n as [|n IH]; intros x Hx Hy; simpl in *.
  - apply nil_length_inv in Hx as ->. simpl.
    by rewrite take_ge by lia.
  - rewrite take_app_le, drop_app_le by lia. f_equal.
    apply IH; [|done]. rewrite length_drop. lia.
Qed.

Lemma map_blocks_append_last n d xs ys :
  Forall (λ x, length x = n * d) xs → Forall (λ y, length y = d) ys →
  map (blocks (n + 1) d) (zip_with app xs ys)
  = zip_with (λ row v, row ++ [v]) (map (blocks n d) xs) ys.
Proof.
  intros H. revert ys. induction H as [|x xs Hx _ IH]; intros ys Hys;
    destruct Hys as [|y ys Hy Hys]; try done.
  cbn [zip_with map]. rewrite blocks_append_last by done.
  f_equal. by apply IH.
Qed.

Lemma embedding_row_ok w n d i :
  shape w = [n; d] → (0 ≤ i < Z.of_nat n)%Z →
  embedding_row w i = Ok (take d (drop (Z.to_nat i * d) (data w))).
Proof. intros Hw Hi. unfold embedding_row. rewrite Hw. by rewrite decide_True. Qed.

Lemma Embedding_forward_ok w (idx : tensor Z) n d :
  shape w = [n; d] →
  Forall (λ i, 0 ≤ i < Z.of_nat n)%Z (data idx) →
  Embedding_forward w idx
  = Ok (Tensor (shape idx ++ [d]) (concat (embedding_vectors w idx))).
Proof.
  intros Hw Hi. unfold Embedding_forward, embedding_vectors. rewrite Hw.
  rewrite (mapM_Ok _ (λ i, take d (drop (Z.to_nat i * d) (data w)))); [done|].
  eapply Forall_impl; [exact Hi|]. intros i ?. by eapply embedding_row_ok.
Qed.

Lemma length_embedding_vectors w (idx : tensor Z) :
  length (embedding_vectors w idx) = length (data idx).
Proof. unfold embedding_vectors. by rewrite length_fmap. Qed.

Lemma Forall_length_embedding_vectors w (idx : tensor Z) n d :
  shape w = [n; d] → wf w →
  Forall (λ i, 0 ≤ i < Z.of_nat n)%Z (data idx) →
  Forall (λ v, length v = d) (embedding_vectors w idx).
Proof.
  unfold wf, embedding_vectors. intros -> Hw Hi. simpl in *.
  apply Forall_fmap. eapply Forall_impl; [exact Hi|]. intros i Hr. simpl.
  rewrite length_take, length_drop, Hw.
  assert (Hk : Z.to_nat i < n) by (simpl in Hr; lia).
  assert (Z.to_nat i * d + d ≤ n * d) by nia. lia.
Qed.

(** The style token: one vector per label, as a sequence of length one. *)
Lemma style_token_ok w (idx : tensor Z) k b d :
  shape w = [k; d] → wf w →
  shape idx = [b] → wf idx →
  Forall (λ i, 0 ≤ i < Z.of_nat k)%Z (data idx) →
  let s := Tensor [b; 1; d] (concat (embedding_vectors w idx)) in
  Embedding_forward w idx ≫= unsqueeze 1 = Ok s ∧ wf s ∧
  blocks b d (data s) = embedding_vectors w idx.
Proof.
  intros Hw Hwf Hi Hiwf Hr s.
  pose proof (Forall_length_embedding_vectors _ _ _ _ Hw Hwf Hr) as Hv.
  pose proof (length_embedding_vectors w idx) as Hl.
  unfold wf in Hiwf. rewrite Hi in Hiwf. simpl in Hiwf.
  rewrite (Embedding_forward_ok _ _ _ _ Hw Hr), bind_Ok, Hi.
  split; [done|]. split.
  - unfold wf, s; simpl. rewrite (length_concat_blocks _ d) by done. lia.
  - unfold s; simpl. replace b with (length (embedding_vectors w idx)) by lia.
    by apply blocks_concat.
Qed.

(** Appending one step per example puts it behind the last step. *)
Lemma cat_after_rows t s b n d :
  shape t = [b; n; d] → wf t →
  shape s = [b; 1; d] → wf s →
  ∃ r, cat_dim1 t s = Ok r ∧ shape r = [b; n + 1; d] ∧
       rows3 r = zip_with (λ row v, row ++ [v]) (rows3 t) (blocks b d (data s)).
Proof.
  unfold wf. destruct t as [sh dt], s as [ss ds]; simpl.
  intros -> Ht -> Hs. unfold cat_dim1; simpl.
  rewrite decide_True by done.
  eexists; split; [reflexivity|]. split; [done|].
  unfold rows3; simpl.
  simpl in Ht, Hs. rewrite !Nat.mul_1_r in *. rewrite Nat.add_0_r in *.
  pose proof (Forall_length_blocks b (n * d) dt ltac:(lia)) as Hx.
  pose proof (Forall_length_blocks b d ds ltac:(lia)) as Hy.
  pose proof (Forall_length_zip_with_app _ _ _ _ Hx Hy) as Hz.
  replace ((n + 1) * d) with (n * d + d) by lia.
  replace b with (length (zip_with app (blocks b (n * d) dt) (blocks b d ds))) at 1
    by (rewrite length_zip_with, !length_blocks; lia).
  rewrite blocks_concat by done.
  by apply map_blocks_append_last.
Qed.

(** Appending one step per example and dumping the last step gives the
    operand back. *)
Lemma cat_after_drop_last t s b n d :
  shape t = [b; n; d] → wf t →
  shape s = [b; 1; d] → wf s →
  cat_dim1 t s ≫= drop_last_dim1 3 = Ok t.
Proof.
  unfold wf. destruct t as [sh dt], s as [ss ds]; simpl.
  intros -> Ht -> Hs. unfold cat_dim1; simpl.
  rewrite decide_True by done. rewrite bind_Ok.
  unfold drop_last_dim1, ndimension; simpl. f_equal.
  simpl in Ht, Hs. rewrite !Nat.mul_1_r in *. rewrite Nat.add_0_r in *.
  replace (n + 1 - 1) with n by lia. f_equal.
  pose proof (Forall_length_blocks b (n * d) dt ltac:(lia)) as Hx.
  pose proof (Forall_length_blocks b d ds ltac:(lia)) as Hy.
  pose proof (Forall_length_zip_with_app _ _ _ _ Hx Hy) as Hz.
  replace ((n + 1) * d) with (n * d + d) by lia.
  rewrite <- (length_blocks b (n * d) dt) at 1.
  replace (length (blocks b (n * d) dt))
    with (length (zip_with app (blocks b (n * d) dt) (blocks b d ds)))
    by (rewrite length_zip_with, !length_blocks; lia).
  rewrite blocks_concat by done.
  rewrite map_take_zip_with_app by (rewrite ?length_blocks; done).
  apply concat_blocks_all. lia.
Qed.

(** Putting one step per example in front and dumping the last step: the
    size is kept, every example starts with the new step and loses its last one. *)
Lemma cat_before_drop_last t s b n d :
  shape t = [b; n; d] → wf t →
  shape s = [b; 1; d] → wf s →
  ∃ r, cat_dim1 s t ≫= drop_last_dim1 3 = Ok r ∧
       shape r = [b; n; d] ∧ wf r ∧
       rows3 r = zip_with (λ v row, removelast (v :: row))
                   (blocks b d (data s)) (rows3 t).
Proof.
  unfold wf. destruct t as [sh dt], s as [ss ds]; simpl.
  intros -> Ht -> Hs. unfold cat_dim1; simpl.
  rewrite decide_True by done. rewrite bind_Ok.
  unfold drop_last_dim1, ndimension; simpl.
  simpl in Ht, Hs. rewrite !Nat.mul_1_r in *. rewrite Nat.add_0_r in *.
  rewrite Nat.sub_0_r.
  pose proof (Forall_length_blocks b (n * d) dt ltac:(lia)) as Hx.
  pose proof (Forall_length_blocks b d ds ltac:(lia)) as Hy.
  pose proof (Forall_length_zip_with_app _ _ _ _ Hy Hx) as Hz.
  set (X := blocks b (n * d) dt) in *. set (Y := blocks b d ds) in *.
  assert (HlX : length X = b) by apply length_blocks.
  assert (HlY : length Y = b) by apply length_blocks.
  assert (Hcat : blocks b (d + n * d) (concat (zip_with app Y X)) = zip_with app Y X).
  { rewrite <- (blocks_concat (zip_with app Y X) (d + n * d)) at 2 by done.
    by rewrite length_zip_with, HlX, HlY, Nat.min_id. }
  replace ((1 + n) * d) with (d + n * d) by lia. rewrite Hcat.
  set (Z := map (take (n * d)) (zip_with app Y X)).
  assert (HZ : Forall (λ z, length z = n * d) Z).
  { subst Z. apply Forall_fmap. eapply Forall_impl; [exact Hz|].
    intros z Hl. cbn in *. rewrite length_take. lia. }
  assert (HlZ : length Z = b).
  { subst Z. rewrite length_map, length_zip_with. lia. }
  eexists; split; [reflexivity|]. simpl. split; [done|]. split.
  - rewrite Nat.mul_1_r.
    rewrite (length_concat_blocks _ (n * d)) by done. lia.
  - unfold rows3; simpl. rewrite <- HlZ at 1. rewrite blocks_concat by done.
    subst Z. by apply map_blocks_prepend_drop_last.
Qed.

End TensorLemmas.

(* ===================================================================== *)
(** ** EncoderDecoder: style appended to the memory *)

Section EncoderDecoderSpec.
Context {A Mask : Type}.
Variable decoder : tensor A → tensor A → Mask → Mask → result (tensor A).
Variable tgt_embed : tensor Z → result (tensor A).
Variable style_embed : tensor A.

(** C9. [decode_with_style] appends the style embedding behind the encoder
    output and then dumps the last timestep, so the decoder receives the
    encoder output itself and the result is that of [decode], whatever the
    (valid) style labels are.  Holds for every number of timesteps, in
    particular for at least one. *)
Theorem decode_with_style_is_decode (encode_out : tensor A)
    (style_preds : tensor Z) (src_mask tgt_mask : Mask) (tgt : tensor Z)
    (b n d k : nat) :
  shape encode_out = [b; n; d] → wf encode_out →
  shape style_embed = [k; d] → wf style_embed →
  shape style_preds = [b] → wf style_preds →
  Forall (λ i, 0 ≤ i < Z.of_nat k)%Z (data style_preds) →
  (∃ s memory,
      Embedding_forward style_embed style_preds ≫= unsqueeze 1 = Ok s ∧
      cat_dim1 encode_out s = Ok memory ∧
      shape memory = [b; n + 1; d] ∧
      rows3 memory = zip_with (λ row v, row ++ [v]) (rows3 encode_out)
                       (embedding_vectors style_embed style_preds) ∧
      drop_last_dim1 3 memory = Ok encode_out) ∧
  EncoderDecoder.decode_with_style decoder tgt_embed style_embed
    encode_out style_preds src_mask tgt tgt_mask
  = EncoderDecoder.decode decoder tgt_embed encode_out src_mask tgt tgt_mask.
Proof.
  intros He Hewf Hw Hwwf Hp Hpwf Hr.
  destruct (style_token_ok _ _ _ _ _ Hw Hwwf Hp Hpwf Hr) as (Hs & Hswf & Hbl).
  set (s := Tensor [b; 1; d] (concat (embedding_vectors style_embed style_preds))) in *.
  destruct (cat_after_rows encode_out s b n d He Hewf eq_refl Hswf)
    as (memory & Hcat & Hshape & Hrows).
  pose proof (cat_after_drop_last encode_out s b n d He Hewf eq_refl Hswf) as Hdrop.
  rewrite Hcat, bind_Ok in Hdrop.
  split.
  - exists s, memory. rewrite Hbl in Hrows. done.
  - unfold EncoderDecoder.decode_with_style, EncoderDecoder.decode.
    destruct (Embedding_forward style_embed style_preds) as [e|]; [|done].
    rewrite bind_Ok in Hs.
    by rewrite bind_Ok, Hs, bind_Ok, Hcat, bind_Ok, Hdrop, bind_Ok.
Qed.

End EncoderDecoderSpec.

(* ===================================================================== *)
(** ** StyleDecoder: style prepended to memory and target *)

(** After [unsqueeze(1)] a tensor has at least two dimensions: the first
    branch on the rank in [StyleDecoder.forward] is never taken. *)
Lemma unsqueeze_1_rank {A} (s a : tensor A) :
  unsqueeze 1 s = Ok a → 2 ≤ ndimension a.
Proof.
  unfold unsqueeze, ndimension. case_decide as Hr; [|done].
  intros [= <-]. simpl. destruct (shape s); simpl in *; lia.
Qed.

(** A single label given as a 0-d tensor takes the second branch and ends
    as the same one-step sequence as a batch of one label. *)
Lemma style_token_scalar_label {A} (w : tensor A) (i : Z) (k d : nat) :
  shape w = [k; d] → wf w → (0 ≤ i < Z.of_nat k)%Z →
  ∃ a, (s ← Embedding_forward w (Tensor [] [i]); unsqueeze 1 s) = Ok a ∧
       ndimension a = 2 ∧
       (x ← permute_1_0 a; unsqueeze 0 x)
       = Ok (Tensor [1; 1; d] (concat (embedding_vectors w (Tensor [1] [i])))).
Proof.
  intros Hw Hwf Hi.
  assert (Hr : Forall (λ i, 0 ≤ i < Z.of_nat k)%Z (data (Tensor [] [i])))
    by (simpl; repeat constructor; lia).
  assert (Hlen : length (take d (drop (Z.to_nat i * d) (data w))) = d).
  { pose proof (Forall_length_embedding_vectors w (Tensor [] [i]) k d Hw Hwf Hr)
      as Hv.
    unfold embedding_vectors in Hv. rewrite Hw in Hv. simpl in Hv.
    by inversion Hv. }
  rewrite (Embedding_forward_ok w _ k d Hw Hr), bind_Ok.
  unfold embedding_vectors. rewrite Hw. simpl.
  set (v := take d (drop (Z.to_nat i * d) (data w))) in *.
  eexists. split; [reflexivity|]. split; [done|].
  unfold permute_1_0, unsqueeze. simpl. rewrite !app_nil_r.
  rewrite <- Hlen at 2. rewrite blocks_singletons. f_equal. f_equal.
  clear. induction v as [|x v IH]; csimpl; [done|]. f_equal. exact IH.
Qed.

Section StyleDecoderSpec.
Context {A Mask : Type}.
Variable decoder : tensor A → tensor A → Mask → Mask → result (tensor A).
Variable src_embed : tensor Z → result (tensor A).
Variable style_embed : tensor A.
Variable proj : tensor A → result (tensor A).
Variable log_softmax : tensor A → result (tensor A).

(** C1. [StyleDecoder.forward] embeds every style label into one vector,
    puts that vector as a one-step sequence in front of the encoder memory
    and dumps the memory's last timestep (the size of the memory is kept),
    does the same, independently, with the embedded target, runs the
    decoder stack on the modified target against the modified memory and
    applies the generator (projection, then log-softmax over the vocabulary). *)
Theorem StyleDecoder_forward_spec (enc_out : tensor A) (style_preds : tensor Z)
    (src_mask tgt_mask : Mask) (tgt : tensor Z) (tgt_emb : tensor A)
    (b n l d k : nat) :
  shape enc_out = [b; n; d] → wf enc_out →
  shape style_embed = [k; d] → wf style_embed →
  shape style_preds = [b] → wf style_preds →
  Forall (λ i, 0 ≤ i < Z.of_nat k)%Z (data style_preds) →
  src_embed tgt = Ok tgt_emb → shape tgt_emb = [b; l; d] → wf tgt_emb →
  let styles := embedding_vectors style_embed style_preds in
  length styles = b ∧ Forall (λ v, length v = d) styles ∧
  ∃ memory tgt_modified,
    (shape memory = shape enc_out ∧ wf memory ∧
     rows3 memory
     = zip_with (λ v row, removelast (v :: row)) styles (rows3 enc_out)) ∧
    (shape tgt_modified = shape tgt_emb ∧ wf tgt_modified ∧
     rows3 tgt_modified
     = zip_with (λ v row, removelast (v :: row)) styles (rows3 tgt_emb)) ∧
    StyleDecoder.forward decoder src_embed style_embed
      (Generator.forward proj log_softmax)
      enc_out style_preds src_mask tgt tgt_mask
    = (dec_out ← decoder tgt_modified memory src_mask tgt_mask;
       y ← proj dec_out; log_softmax y).
Proof.
  intros He Hewf Hw Hwwf Hp Hpwf Hr Ht Hts Htwf styles.
  destruct (style_token_ok _ _ _ _ _ Hw Hwwf Hp Hpwf Hr) as (Hs & Hswf & Hbl).
  set (s := Tensor [b; 1; d] (concat (embedding_vectors style_embed style_preds))) in *.
  split.
  { unfold styles. rewrite length_embedding_vectors.
    unfold wf in Hpwf. rewrite Hp in Hpwf. simpl in Hpwf. lia. }
  split; [by eapply Forall_length_embedding_vectors|].
  destruct (cat_before_drop_last enc_out s b n d He Hewf eq_refl Hswf)
    as (memory & Hm & Hms & Hmwf & Hmrows).
  destruct (cat_before_drop_last tgt_emb s b l d Hts Htwf eq_refl Hswf)
    as (tgt_modified & Hg & Hgs & Hgwf & Hgrows).
  rewrite Hbl in Hmrows, Hgrows.
  exists memory, tgt_modified.
  split; [by rewrite He|]. split; [by rewrite Hts|].
  unfold StyleDecoder.forward, Generator.forward.
  destruct (Embedding_forward style_embed style_preds) as [e|]; [|done].
  rewrite bind_Ok in Hs. rewrite bind_Ok, Hs, bind_Ok.
  replace (ndimension s) with 3 by done.
  rewrite decide_False by done. rewrite decide_False by done. rewrite bind_Ok.
  destruct (cat_dim1 s enc_out) as [m0|]; [|done].
  rewrite bind_Ok in Hm. rewrite bind_Ok, Hm, bind_Ok, Ht, bind_Ok.
  destruct (cat_dim1 s tgt_emb) as [t0|]; [|done].
  rewrite bind_Ok in Hg. by rewrite bind_Ok, Hg, bind_Ok.
Qed.

End StyleDecoderSpec.

Lemma decode_with_style_is_decode_witness :
  EncoderDecoder.decode_with_style Sample.decoder Sample.src_embed
    Sample.style_embed Sample.enc_out Sample.style_preds tt Sample.tgt tt
  = EncoderDecoder.decode Sample.decoder Sample.src_embed
      Sample.enc_out tt Sample.tgt tt.
Proof.
  apply (decode_with_style_is_decode Sample.decoder Sample.src_embed
           Sample.style_embed Sample.enc_out Sample.style_preds tt tt
           Sample.tgt 1 2 2 2); try reflexivity.
  repeat constructor; simpl; lia.
Defined.

Lemma StyleDecoder_forward_spec_witness :
  ∃ memory tgt_modified : tensor Z,
    rows3 memory = [[[20; 21]; [1; 2]]]%Z ∧
    rows3 tgt_modified = [[[20; 21]; [5; 6]]]%Z ∧
    Sample.model_dec Sample.enc_out Sample.style_preds tt Sample.tgt tt
    = (dec_out ← Sample.decoder tgt_modified memory tt tt;
       y ← Sample.proj dec_out; Sample.log_softmax y).
Proof.
  destruct (StyleDecoder_forward_spec Sample.decoder Sample.src_embed
              Sample.style_embed Sample.proj Sample.log_softmax
              Sample.enc_out Sample.style_preds tt tt Sample.tgt
              (Tensor [1; 2; 2] [5; 6; 3; 4]%Z) 1 2 2 2 2
              eq_refl eq_refl eq_refl eq_refl eq_refl eq_refl
              ltac:(repeat constructor; simpl; lia) eq_refl eq_refl eq_refl)
    as (_ & _ & memory & tgt_modified & (_ & _ & Hm) & (_ & _ & Ht) & Hf).
  exists memory, tgt_modified. split; [exact Hm|]. split; [exact Ht|exact Hf].
Defined.

Example StyleDecoder_forward_sample :
  Sample.model_dec Sample.enc_out Sample.style_preds tt Sample.tgt tt
  = Ok (Tensor [1; 2; 2] [40; 42; 6; 8]%Z).
Proof. by vm_compute. Qed.

(* ===================================================================== *)
(** ** sent2str and greedy decoding *)

Lemma mapM_fmap_result {A B C} (f : B → result C) (g : A → B) (l : list A) :
  mapM f (g <$> l) = mapM (f ∘ g) l.
Proof.
  induction l as [|x l IH]; csimpl; [done|].
  destruct (f (g x)); [|done]. rewrite !bind_Ok. f_equal. exact IH.
Qed.

(** The items of a flat array are its numbers. *)
Lemma np_iter_flat (a : tensor Z) n :
  shape a = [n] → wf a →
  np_iter a = Ok ((λ z, Tensor [] [z]) <$> data a).
Proof.
  unfold wf, np_iter. intros -> Hl. simpl in *.
  replace n with (length (data a)) by lia.
  rewrite blocks_singletons. by rewrite <- list_fmap_compose.
Qed.

Lemma words_of_flat (id2word : gmap Z string) (a : tensor Z) n :
  shape a = [n] → wf a →
  (items ← np_iter a; mapM (dict_getitem id2word) items)
  = mapM (dict_word id2word) (data a).
Proof.
  intros Hs Hwf. rewrite (np_iter_flat a n), bind_Ok by done.
  by rewrite mapM_fmap_result.
Qed.

Lemma positions_app_notin v pre l i :
  v ∉ pre → positions v (pre ++ l) i = positions v l (i + length pre).
Proof.
  revert i. induction pre as [|x pre IH]; intros i Hn; simpl.
  - by rewrite Nat.add_0_r.
  - apply not_elem_of_cons in Hn as [Hx Hn].
    rewrite decide_False by done. rewrite IH by done. f_equal. lia.
Qed.

(** A sequence that holds [v] splits at the first [v]. *)
Lemma first_occurrence (v : Z) (l : list Z) :
  v ∈ l → ∃ pre post, l = pre ++ v :: post ∧ v ∉ pre.
Proof.
  induction l as [|x l IH]; intros Hin; [by apply elem_of_nil in Hin|].
  destruct (decide (x = v)) as [->|Hne].
  - exists [], l. split; [done|]. apply not_elem_of_nil.
  - apply elem_of_cons in Hin as [->|Hin]; [done|].
    destruct (IH Hin) as (pre & post & -> & Hpre).
    exists (x :: pre), post. split; [done|].
    apply not_elem_of_cons. split; [congruence|done].
Qed.

(** The truncation keeps what stands before the first [eos] of a flat array. *)
Lemma truncate_at_first (eos : Z) (a : tensor Z) n pre post :
  shape a = [n] → wf a →
  data a = pre ++ eos :: post → eos ∉ pre →
  truncate_at eos a = Ok (Tensor [length pre] pre).
Proof.
  unfold wf. intros Hs Hwf Hd Hpre.
  assert (Hn : n = length pre + S (length post)).
  { rewrite Hs, Hd in Hwf. simpl in Hwf. rewrite length_app in Hwf.
    simpl in Hwf. lia. }
  assert (Hw : np_where_0 a eos
               = length pre :: ((λ j, j / 1) <$> positions eos post (S (length pre)))).
  { unfold np_where_0. rewrite Hs, Hd.
    change (numel_of (tail [n])) with 1.
    rewrite positions_app_notin by done. cbn [positions].
    rewrite decide_True by done. rewrite fmap_cons. f_equal.
    apply Nat.div_1_r. }
  assert (Htake : np_take_0 (length pre) a = Ok (Tensor [length pre] pre)).
  { unfold np_take_0. rewrite Hs, Hd. simpl.
    rewrite Nat.min_l by lia. rewrite Nat.mul_1_r.
    by rewrite take_app_length. }
  unfold truncate_at. rewrite Hw.
  by destruct (positions eos post (S (length pre))) as [|p ps].
Qed.

(** What [sent2str] returns for a flat array when no truncation applies. *)
Lemma sent2str_flat_all (a : tensor Z) (id2word : gmap Z string) eos_id n :
  shape a = [n] → wf a → truthy eos_id = false →
  sent2str (PyNdarray a) id2word eos_id
  = (words ← mapM (dict_word id2word) (data a); Ok (join words)).
Proof.
  intros Hs Hwf Ht. unfold sent2str. rewrite Ht.
  assert (Hsame : (match eos_id with Some _ => Ok a | None => Ok a end) = Ok a)
    by by destruct eos_id.
  rewrite Hsame, bind_Ok.
  rewrite <- (words_of_flat id2word a n) by done.
  by destruct (np_iter a).
Qed.

(** What [sent2str] returns for a flat array that holds a truthy [eos]. *)
Lemma sent2str_flat_first_eos (a : tensor Z) (id2word : gmap Z string)
    (eos : Z) n pre post :
  shape a = [n] → wf a → eos ≠ 0%Z →
  data a = pre ++ eos :: post → eos ∉ pre →
  sent2str (PyNdarray a) id2word (Some eos)
  = (words ← mapM (dict_word id2word) pre; Ok (join words)).
Proof.
  intros Hs Hwf Hne Hd Hpre. unfold sent2str, truthy.
  apply Z.eqb_neq in Hne. rewrite Hne. simpl negb. cbv iota.
  rewrite (truncate_at_first eos a n pre post), bind_Ok by done.
  pose proof (words_of_flat id2word (Tensor [length pre] pre) (length pre)
                eq_refl ltac:(unfold wf; simpl; lia)) as Hw.
  cbn [data] in Hw. rewrite <- Hw.
  by destruct (np_iter _).
Qed.

Lemma mapM_not_Raise {A B} (f : A → result B) (l : list A) (e : exn) :
  (∀ x, f x ≠ Raise e) → mapM f l ≠ Raise e.
Proof.
  intros Hf. induction l as [|x l IH]; csimpl; [done|].
  destruct (f x) as [y|e'] eqn:Hx.
  - rewrite bind_Ok. destruct (mapM f l) as [ys|e'']; [done|].
    simpl. intros [= ->]. done.
  - simpl. intros [= ->]. by apply (Hf x).
Qed.

Lemma dict_getitem_not_ValueError (id2word : gmap Z string) i :
  dict_getitem id2word i ≠ Raise ValueError.
Proof.
  unfold dict_getitem, dict_word.
  destruct (shape i); [|done].
  destruct (data i) as [|z [|]]; try done.
  by destruct (id2word !! z).
Qed.

Lemma truncate_at_not_ValueError eos (a : tensor Z) :
  truncate_at eos a ≠ Raise ValueError.
Proof.
  unfold truncate_at, np_take_0.
  repeat case_decide; destruct (np_where_0 a eos) as [|? [|]];
    destruct (shape a); done.
Qed.

Lemma before_first_split (eos : Z) (l : list Z) :
  eos ∈ l →
  ∃ post, l = before_first eos l ++ eos :: post ∧ eos ∉ before_first eos l.
Proof.
  induction l as [|x l IH]; intros Hin; [by apply elem_of_nil in Hin|].
  simpl. destruct (decide (x = eos)) as [->|Hne].
  - exists l. split; [done|]. apply not_elem_of_nil.
  - apply elem_of_cons in Hin as [->|Hin]; [done|].
    destruct (IH Hin) as (post & Heq & Hpre).
    exists post. split; [by rewrite <- app_comm_cons, <- Heq|].
    apply not_elem_of_cons. split; [congruence|done].
Qed.

Lemma before_first_app_notin (eos : Z) (pre post : list Z) :
  eos ∉ pre → before_first eos (pre ++ eos :: post) = pre.
Proof.
  induction pre as [|x pre IH]; intros Hn; simpl.
  - by rewrite decide_True.
  - apply not_elem_of_cons in Hn as [Hx Hn].
    rewrite decide_False by congruence. by rewrite IH.
Qed.

Section GreedyDecoding.
Context {A : Type}.
Variable lt : A → A → bool.

(** The ids that greedy decoding reads off a batch of one sentence. *)
Lemma argmax_last_one_sentence (preds : tensor A) l v :
  shape preds = [1; l; S v] →
  argmax_last lt preds
  = Ok (Tensor [1; l] (argmax_list lt <$> blocks l (S v) (data preds))).
Proof.
  intros Hs. unfold argmax_last. rewrite Hs.
  change (last [1; l; S v]) with (Some (S v)).
  change (removelast [1; l; S v]) with [1; l].
  replace (numel_of [1; l]) with l by (simpl; lia). done.
Qed.

(** C4, as amended. For a flat array that holds the end-of-sequence id, and
    an end-of-sequence id that is truthy (not [0]), [sent2str] keeps exactly
    the ids before the first occurrence, however many occurrences follow,
    and joins their tokens with single spaces; greedy decoding of one
    sentence does so with the arg-max ids; for ids [4, 7, 2, eos, 9, 9] the
    text is that of [4, 7, 2]. *)
Theorem sent2str_truncates_at_first_truthy_eos (id2word : gmap Z string) (eos : Z) :
  eos ≠ 0%Z →
  (∀ (a : tensor Z) n,
      shape a = [n] → wf a → eos ∈ data a →
      sent2str (PyNdarray a) id2word (Some eos)
      = (words ← mapM (dict_word id2word) (before_first eos (data a));
         Ok (join words))) ∧
  (∀ (preds : tensor A) l v,
      shape preds = [1; l; S v] →
      let ids := argmax_list lt <$> blocks l (S v) (data preds) in
      eos ∈ ids →
      greedy_decode_sent lt preds id2word (Some eos)
      = (words ← mapM (dict_word id2word) (before_first eos ids);
         Ok (join words, Tensor [1; l] ids))) ∧
  (eos ∉ [4; 7; 2]%Z →
   sent2str (PyNdarray (Tensor [6] [4; 7; 2; eos; 9; 9]%Z)) id2word (Some eos)
   = (words ← mapM (dict_word id2word) [4; 7; 2]%Z; Ok (join words))).
Proof.
  intros Hne.
  assert (Hflat : ∀ (a : tensor Z) n,
      shape a = [n] → wf a → eos ∈ data a →
      sent2str (PyNdarray a) id2word (Some eos)
      = (words ← mapM (dict_word id2word) (before_first eos (data a));
         Ok (join words))).
  { intros a n Hs Hwf Hin.
    destruct (before_first_split eos (data a) Hin) as (post & Hd & Hpre).
    by apply (sent2str_flat_first_eos a id2word eos n _ post). }
  split; [exact Hflat|]. split.
  - intros preds l v Hs ids Hin.
    unfold greedy_decode_sent.
    rewrite (argmax_last_one_sentence preds l v Hs), bind_Ok. cbv zeta.
    fold ids. change (squeeze_0 (Tensor [1; l] ids)) with (Tensor [l] ids).
    rewrite (Hflat (Tensor [l] ids) l); [| done | | done].
    + cbn [data]. by destruct (mapM _ _).
    + unfold wf, ids. cbn [data shape]. rewrite length_fmap, length_blocks.
      simpl. lia.
  - intros Hnotin.
    rewrite (Hflat _ 6); [|done|done|].
    + cbn [data].
      change [4; 7; 2; eos; 9; 9]%Z with ([4; 7; 2] ++ eos :: [9; 9])%Z.
      by rewrite (before_first_app_notin eos [4; 7; 2]%Z [9; 9]%Z Hnotin).
    + cbn [data]. set_solver.
Qed.

End GreedyDecoding.

(** The witness of C4 as amended: an end-of-sequence id of 3. *)
Lemma sent2str_truncates_at_first_truthy_eos_witness :
  sent2str (PyNdarray (Tensor [6] [4; 7; 2; 3; 9; 9]%Z)) Sample.id2word (Some 3%Z)
  = (words ← mapM (dict_word Sample.id2word) [4; 7; 2]%Z; Ok (join words)).
Proof.
  apply (sent2str_truncates_at_first_truthy_eos (A:=Z) Z.ltb Sample.id2word 3%Z);
    [lia |].
  repeat (apply not_elem_of_cons; split; [lia|]). apply not_elem_of_nil.
Defined.

Example sent2str_spec_example :
  sent2str (PyNdarray (Tensor [6] [4; 7; 2; 3; 9; 3]%Z)) Sample.id2word (Some 3%Z)
  = Ok "w4 w7 w2".
Proof. vm_compute. reflexivity. Qed.

(** C4, counterexample. With an end-of-sequence id of [0], the array
    [4, 0, 9] holds that id, yet nothing is cut: the text is that of all
    three ids and not that of [4] alone. *)
Lemma sent2str_eos_zero_is_not_truncated :
  let a := Tensor [3] [4; 0; 9]%Z in
  0%Z ∈ data a ∧
  sent2str (PyNdarray a) Sample.id2word (Some 0%Z) = Ok "w4 w0 w9" ∧
  sent2str (PyNdarray a) Sample.id2word (Some 0%Z)
  ≠ (words ← mapM (dict_word Sample.id2word) (before_first 0 (data a));
     Ok (join words)).
Proof.
  split; [set_solver|]. split; [by vm_compute|]. by vm_compute.
Qed.

(** C10. With an end-of-sequence id that is [None] or [0], [sent2str] joins
    the tokens of every id of a flat array: nothing is cut, whether or not
    the id occurs. *)
Theorem sent2str_falsy_eos_joins_all (a : tensor Z) (id2word : gmap Z string)
    (eos_id : option Z) (n : nat) :
  shape a = [n] → wf a →
  eos_id = None ∨ eos_id = Some 0%Z →
  sent2str (PyNdarray a) id2word eos_id
  = (words ← mapM (dict_word id2word) (data a); Ok (join words)).
Proof.
  intros Hs Hwf Heos. apply (sent2str_flat_all a id2word eos_id n Hs Hwf).
  by destruct Heos as [-> | ->].
Qed.

Lemma sent2str_falsy_eos_joins_all_witness :
  sent2str (PyNdarray (Tensor [3] [4; 0; 9]%Z)) Sample.id2word (Some 0%Z)
  = (words ← mapM (dict_word Sample.id2word) [4; 0; 9]%Z; Ok (join words)).
Proof.
  apply (sent2str_falsy_eos_joins_all (Tensor [3] [4; 0; 9]%Z) Sample.id2word
           (Some 0%Z) 3); [reflexivity | reflexivity | by right].
Defined.

(** C5, as amended. [sent2str] raises the [ValueError] of its type check
    exactly when its input is not a NumPy array; the check comes first, so
    the outcome then depends on neither the dict nor the end-of-sequence
    id.  An array of any shape passes the check. *)
Theorem sent2str_ValueError_iff_not_ndarray (o : pyobj)
    (id2word : gmap Z string) (eos_id : option Z) :
  sent2str o id2word eos_id = Raise ValueError ↔ ¬ is_ndarray o.
Proof.
  split.
  - destruct o as [a| | | | |]; simpl; try tauto.
    intros H _. revert H.
    destruct (match eos_id with
              | Some eos => if truthy eos_id then truncate_at eos a else Ok a
              | None => Ok a
              end) as [a'|e] eqn:Ht.
    + rewrite bind_Ok. unfold np_iter.
      destruct (shape a') as [|k r]; [done|]. rewrite bind_Ok.
      pose proof (mapM_not_Raise (dict_getitem id2word)
                    (Tensor r <$> blocks k (numel_of r) (data a')) ValueError
                    (dict_getitem_not_ValueError id2word)) as Hm.
      destruct (mapM _ _) as [ws|e]; [done|]. simpl. congruence.
    + simpl. intros [= ->].
      destruct eos_id as [eos|]; [|done].
      destruct (truthy (Some eos)); [|done].
      by apply truncate_at_not_ValueError in Ht.
  - destruct o; simpl; tauto.
Qed.

(** C5, counterexample. The 1 × 2 array [[3, 1]] is not flat, yet with an
    end-of-sequence id of 3 [sent2str] accepts it and returns the empty text. *)
Lemma sent2str_accepts_matrix :
  let o := PyNdarray (Tensor [1; 2] [3; 1]%Z) in
  sent2str o ∅ (Some 3%Z) = Ok "" ∧
  ¬ (raises (sent2str o ∅ (Some 3%Z)) ↔ ¬ flat_numeric o).
Proof.
  split; [by vm_compute|].
  intros [_ H]. destruct H as [e He]; [|by vm_compute in He].
  simpl. unfold ndimension. simpl. lia.
Qed.

(* ===================================================================== *)
(** ** The evaluation loop *)

Section TensorViews.
Context {A : Type}.
Implicit Types (t : tensor A).

Lemma view_rows_rank3 t b n v :
  shape t = [b; n; v] → v ≠ 0 →
  view_rows v t = Ok (Tensor [b * n; v] (data t)).
Proof.
  intros Hs Hv. unfold view_rows, numel. rewrite Hs.
  rewrite decide_False by done.
  replace (numel_of [b; n; v]) with (b * n * v) by (simpl; lia).
  rewrite Nat.Div0.mod_mul, Nat.div_mul by done.
  by rewrite decide_True.
Qed.

Lemma rows2_flattened b n v (d : list A) :
  rows2 (Tensor [b * n; v] d) = concat (rows3 (Tensor [b; n; v] d)).
Proof. unfold rows2, rows3. simpl. apply blocks_mul. Qed.

(** [t[:, 1:, :]] drops the first step of every example. *)
Lemma drop_first_rank3 t b n v :
  shape t = [b; n; v] → wf t →
  ∃ r, drop_first_dim1 3 t = Ok r ∧ shape r = [b; n - 1; v] ∧
       rows3 r = tail <$> rows3 t.
Proof.
  unfold wf. destruct t as [sh d]. simpl. intros -> Hwf.
  unfold drop_first_dim1, ndimension. simpl.
  eexists; split; [reflexivity|]. split; [done|].
  unfold rows3. simpl. simpl in Hwf. rewrite !Nat.mul_1_r in *.
  set (X := blocks b (n * v) d).
  assert (HX : Forall (λ x, length x = n * v) X)
    by (apply Forall_length_blocks; lia).
  assert (HlX : length X = b) by apply length_blocks.
  assert (HY : Forall (λ y, length y = (n - 1) * v) (map (drop v) X)).
  { apply Forall_fmap. eapply Forall_impl; [exact HX|].
    intros x Hx. cbn. rewrite length_drop, Hx, Nat.mul_sub_distr_r. lia. }
  replace b with (length (map (drop v) X)) at 1 by (by rewrite length_map).
  rewrite blocks_concat by done.
  rewrite <- !list_fmap_compose. apply list_fmap_ext.
  intros _ x _. cbn. apply blocks_drop_first.
Qed.

End TensorViews.

(** [src[:, :-1]] drops the last token of every example. *)
Lemma drop_last_rank2 {A} (t : tensor A) b n :
  shape t = [b; n] → wf t →
  ∃ r, drop_last_dim1 2 t = Ok r ∧ shape r = [b; n - 1] ∧
       data r = concat (@removelast _ <$> rows2 t).
Proof.
  unfold wf. destruct t as [sh d]. simpl. intros -> Hwf.
  unfold drop_last_dim1, ndimension. simpl.
  eexists; split; [reflexivity|]. split; [done|]. simpl.
  unfold rows2. simpl. simpl in Hwf. rewrite !Nat.mul_1_r in *. f_equal.
  assert (HX : Forall (λ x, length x = n) (blocks b n d))
    by (apply Forall_length_blocks; lia).
  induction HX as [|x X Hx _ IH]; simpl; [done|].
  rewrite <- Hx at 1. by rewrite take_removelast, IH.
Qed.

Section EvaluateSpec.
Context {A Mask Loss AccuracyRec AccuracyCls : Type}.
Variable model_enc : tensor Z → Mask → result (tensor A).
Variable model_cls : tensor A → result (tensor A).
Variable model_dec :
  tensor A → tensor Z → Mask → tensor Z → Mask → result (tensor A).
Variable cls_criteria : tensor A → tensor Z → result (tensor A).
Variable seq2seq_criteria : tensor A → tensor Z → result (tensor A).
Variable ent_criteria : tensor A → result (tensor A).
Variable make_masks : tensor Z → tensor Z → result (Mask * Mask).
Variable Loss_new : Loss.
Variable Loss_update : Loss → tensor A → Loss.
Variable AccuracyRec_new : AccuracyRec.
Variable AccuracyRec_update : AccuracyRec → tensor A → tensor Z → AccuracyRec.
Variable AccuracyCls_new : AccuracyCls.
Variable AccuracyCls_update : AccuracyCls → tensor A → tensor Z → AccuracyCls.

#[local] Abbreviation run_batch :=
  (evaluate_batch model_enc model_cls model_dec cls_criteria seq2seq_criteria
     ent_criteria make_masks Loss_update AccuracyRec_update AccuracyCls_update).
#[local] Abbreviation run_batches :=
  (evaluate_batches model_enc model_cls model_dec cls_criteria seq2seq_criteria
     ent_criteria make_masks Loss_update AccuracyRec_update AccuracyCls_update).
#[local] Abbreviation run_loop :=
  (evaluate_loop model_enc model_cls model_dec cls_criteria seq2seq_criteria
     ent_criteria make_masks Loss_update AccuracyRec_update AccuracyCls_update).
#[local] Abbreviation run_metrics :=
  (evaluate_metrics model_enc model_cls model_dec cls_criteria seq2seq_criteria
     ent_criteria make_masks Loss_new Loss_update AccuracyRec_new
     AccuracyRec_update AccuracyCls_new AccuracyCls_update).

(** C2. In an iteration of the loop the reconstruction loss compares the
    whole predictions (every position of every example) with the whole
    source (every token), neither of them shifted, whereas the
    reconstruction accuracy is updated with the predictions without their
    first position and the source without its last token. *)
Theorem evaluate_batch_loss_unshifted_accuracy_shifted
    (batch : Batch) (m m' : Metrics (Loss:=Loss) (AccuracyRec:=AccuracyRec)
                              (AccuracyCls:=AccuracyCls))
    (src_mask trg_mask : Mask) (encode_out preds : tensor A) (b l v : nat) :
  make_masks (text batch) (text batch) = Ok (src_mask, trg_mask) →
  model_enc (text batch) src_mask = Ok encode_out →
  model_dec encode_out (label batch) src_mask (text batch) trg_mask = Ok preds →
  shape preds = [b; l; v] → wf preds →
  shape (text batch) = [b; l] → wf (text batch) →
  run_batch batch m = Ok m' →
  ∃ rec_loss P S P' S',
    (seq2seq_criteria P S = Ok rec_loss ∧
     rec_running_loss m' = Loss_update (rec_running_loss m) rec_loss ∧
     shape P = [b * l; v] ∧ rows2 P = concat (rows3 preds) ∧
     shape S = [b * l] ∧ data S = concat (rows2 (text batch))) ∧
    (rec_acc m' = AccuracyRec_update (rec_acc m) P' S' ∧
     shape P' = [b * (l - 1); v] ∧ rows2 P' = concat (tail <$> rows3 preds) ∧
     shape S' = [b * (l - 1)] ∧
     data S' = concat (@removelast _ <$> rows2 (text batch))).
Proof.
  intros Hmm Henc Hdec Hps Hpwf Hss Hswf Hev.
  unfold evaluate_batch in Hev.
  rewrite Hmm, bind_Ok, Henc, bind_Ok in Hev.
  destruct (model_cls encode_out) as [cls_preds|]; [|done].
  rewrite bind_Ok in Hev.
  destruct (cls_criteria cls_preds (label batch)) as [cls_loss|]; [|done].
  rewrite bind_Ok, Hdec, bind_Ok in Hev.
  assert (Hlast : size_last preds = Ok v) by (unfold size_last; by rewrite Hps).
  rewrite Hlast, bind_Ok in Hev.
  destruct (decide (v = 0)) as [->|Hv].
  { unfold view_rows in Hev. by rewrite decide_True in Hev. }
  rewrite (view_rows_rank3 preds b l v Hps Hv), bind_Ok in Hev.
  destruct (seq2seq_criteria _ _) as [rec_loss|] eqn:Hloss; [|done].
  rewrite bind_Ok in Hev.
  destruct (ent_criteria cls_preds) as [ent_loss|]; [|done].
  rewrite bind_Ok in Hev.
  destruct (drop_first_rank3 preds b l v Hps Hpwf) as (p1 & Hp1 & Hp1s & Hp1r).
  destruct (drop_last_rank2 (text batch) b l Hss Hswf) as (s1 & Hs1 & Hs1s & Hs1d).
  rewrite Hp1, bind_Ok in Hev.
  assert (Hlast1 : size_last p1 = Ok v) by (unfold size_last; by rewrite Hp1s).
  rewrite Hlast1, bind_Ok in Hev.
  rewrite (view_rows_rank3 p1 b (l - 1) v Hp1s Hv), bind_Ok in Hev.
  rewrite Hs1, bind_Ok in Hev.
  injection Hev as <-.
  exists rec_loss, (Tensor [b * l; v] (data preds)), (view_flat (text batch)),
    (Tensor [b * (l - 1); v] (data p1)), (view_flat s1).
  split; [|split; [done|]]; repeat split; try done.
  - rewrite rows2_flattened. f_equal. by rewrite <- Hps, tensor_eta.
  - unfold view_flat, numel. rewrite Hss. simpl. f_equal. lia.
  - unfold view_flat, rows2. rewrite Hss. cbn [data].
    symmetry. apply concat_blocks_all. unfold wf in Hswf.
    rewrite Hswf, Hss. simpl. lia.
  - rewrite rows2_flattened, <- Hp1r. f_equal. f_equal.
    by rewrite <- Hp1s, tensor_eta.
  - unfold view_flat, numel. rewrite Hs1s. simpl. f_equal. lia.
Qed.

Lemma evaluate_loop_uncapped cap i data_iter m :
  truthy cap = false ∨ (∃ c, cap = Some c ∧ (c < Z.of_nat i)%Z) →
  run_loop cap i data_iter m = run_batches data_iter m.
Proof.
  revert i m. induction data_iter as [|batch rest IH]; intros i m Hcap;
    simpl; [done|].
  assert (Hgo : truthy cap && bool_decide (Some (Z.of_nat i) = cap) = false).
  { destruct Hcap as [-> | (c & -> & Hc)]; [done|].
    apply andb_false_iff. right. apply bool_decide_eq_false.
    intros [= <-]. lia. }
  rewrite Hgo. destruct (run_batch batch m) as [m1|]; [|done].
  rewrite !bind_Ok. apply IH.
  destruct Hcap as [? | (c & -> & Hc)]; [by left|].
  right. exists c. split; [done|lia].
Qed.

Lemma evaluate_loop_capped (c : Z) i data_iter m :
  (Z.of_nat i ≤ c)%Z → c ≠ 0%Z →
  run_loop (Some c) i data_iter m
  = run_batches (take (Z.to_nat c - i) data_iter) m.
Proof.
  revert i m. induction data_iter as [|batch rest IH]; intros i m Hi Hc.
  - by rewrite take_nil.
  - simpl. unfold truthy. apply Z.eqb_neq in Hc as Hc'. rewrite Hc'. simpl.
    destruct (decide (Z.of_nat i = c)) as [Heq|Hne].
    + rewrite bool_decide_eq_true_2 by congruence.
      replace (Z.to_nat c - i) with 0 by lia. done.
    + rewrite bool_decide_eq_false_2 by congruence.
      replace (Z.to_nat c - i) with (S (Z.to_nat c - S i)) by lia. simpl.
      destruct (run_batch batch m) as [m1|]; [|done].
      rewrite !bind_Ok. apply IH; lia.
Qed.

(** C3, as amended. A cap of [0] (like [None]) switches the cap off: the
    loop body runs on every batch of the stream; a positive cap [c] lets it
    run on the first [c] batches.  The running metrics are those of their
    constructors when the stream itself is empty. *)
Theorem evaluate_cap_zero_is_no_cap (data_iter : list Batch) (cap : option Z) :
  run_metrics data_iter cap
  = run_batches (evaluated cap data_iter)
      (Metrics_new Loss_new AccuracyRec_new AccuracyCls_new) ∧
  evaluated (Some 0%Z) data_iter = data_iter ∧
  run_metrics [] cap
  = Ok (Metrics_new Loss_new AccuracyRec_new AccuracyCls_new).
Proof.
  split; [|done].
  unfold evaluate_metrics, evaluated.
  destruct cap as [c|]; [|apply evaluate_loop_uncapped; by left].
  destruct (decide (0 < c)%Z) as [Hpos|Hneg].
  - rewrite evaluate_loop_capped by lia. by rewrite Nat.sub_0_r.
  - apply evaluate_loop_uncapped.
    destruct (decide (c = 0%Z)) as [->|Hne]; [by left|].
    right. exists c. split; [done|lia].
Qed.

End EvaluateSpec.

Lemma evaluate_batch_loss_unshifted_accuracy_shifted_witness :
  ∃ (m' : Metrics) (rec_loss P S P' S' : tensor Z),
    Sample.evaluate_batch Sample.batch0 (Metrics_new [] [] []) = Ok m' ∧
    Sample.criteria P S = Ok rec_loss ∧
    rec_running_loss m' = [rec_loss] ∧
    rows2 P = [[40; 42]; [10; 12]]%Z ∧ data S = [5; 3]%Z ∧
    rec_acc m' = [(P', S')] ∧
    rows2 P' = [[10; 12]]%Z ∧ data S' = [5]%Z.
Proof.
  eexists.
  edestruct (evaluate_batch_loss_unshifted_accuracy_shifted
               Sample.model_enc Sample.model_cls Sample.model_dec
               Sample.criteria Sample.criteria Sample.ent_criteria
               Sample.make_masks Sample.Loss_update Sample.Accuracy_update
               Sample.Accuracy_update Sample.batch0 (Metrics_new [] [] []))
    as (rec_loss & P & S & P' & S' & (Hl & Hrl & _ & HP & _ & HS)
        & (Hra & _ & HP' & _ & HS'));
    [reflexivity | reflexivity | reflexivity | reflexivity | reflexivity
    | reflexivity | reflexivity | reflexivity |].
  exists rec_loss, P, S, P', S'.
  split; [reflexivity|]. split; [exact Hl|]. split; [exact Hrl|].
  split; [rewrite HP; by vm_compute|]. split; [rewrite HS; by vm_compute|].
  split; [exact Hra|].
  split; [rewrite HP'; by vm_compute|rewrite HS'; by vm_compute].
Defined.

(** C3, counterexample. With a cap of [0] and a stream of one batch the loop
    body runs: every running metric has taken one observation and none is
    as its constructor left it. *)
Lemma evaluate_cap_zero_runs_the_batch :
  ∃ m : Metrics,
    Sample.evaluate_metrics [Sample.batch0] (Some 0%Z) = Ok m ∧
    length (cls_running_loss m) = 1 ∧ length (rec_running_loss m) = 1 ∧
    length (ent_running_loss m) = 1 ∧
    length (rec_acc m) = 1 ∧ length (cls_acc m) = 1 ∧
    m ≠ Metrics_new [] [] [].
Proof.
  eexists. split; [by vm_compute|]. by repeat split.
Qed.

(* ===================================================================== *)
(** ** The batch generation pipeline *)

Lemma negate_label_involutive (x : Z) :
  x = 0%Z ∨ x = 1%Z → negate_label (negate_label x) = x.
Proof. by intros [-> | ->]. Qed.

Lemma negate_labels_involutive (labels : tensor Z) :
  Forall (λ x, x = 0%Z ∨ x = 1%Z) (data labels) →
  negate_labels (negate_labels labels) = labels.
Proof.
  destruct labels as [sh d]. unfold negate_labels. simpl. intros H. f_equal.
  induction H as [|x d Hx _ IH]; csimpl; [done|].
  rewrite negate_label_involutive by done. f_equal. exact IH.
Qed.

Section GenerateSpec.
Context {A Mask : Type}.
Variable lt : A → A → bool.
Variable model_gen : tensor Z → Mask → tensor Z → result (tensor A).
Variable make_masks : tensor Z → tensor Z → result (Mask * Mask).

#[local] Abbreviation gen_batch := (generate_batch lt model_gen make_masks).
#[local] Abbreviation gen_batches := (generate_batches lt model_gen make_masks).
#[local] Abbreviation gen_loop := (generate_loop lt model_gen make_masks).

Lemma generate_loop_unlimited vocab limit i data_iter acc :
  truthy limit = false ∨ (∃ l, limit = Some l ∧ (l - 1 < Z.of_nat i)%Z) →
  gen_loop vocab limit i data_iter acc = gen_batches vocab data_iter acc.
Proof.
  revert i acc. induction data_iter as [|batch rest IH]; intros i acc Hl;
    simpl; [done|].
  destruct (gen_batch vocab batch acc) as [acc1|]; [|done]. rewrite !bind_Ok.
  assert (Hgo : truthy limit
                && bool_decide (Some (Z.of_nat i) = (λ l, l - 1)%Z <$> limit)
                = false).
  { destruct Hl as [-> | (l & -> & Hl)]; [done|].
    apply andb_false_iff. right. apply bool_decide_eq_false.
    simpl. intros [= Heq]. lia. }
  rewrite Hgo. apply IH.
  destruct Hl as [? | (l & -> & Hl)]; [by left|].
  right. exists l. split; [done|lia].
Qed.

Lemma generate_loop_limited vocab (l : Z) i data_iter acc :
  (Z.of_nat i ≤ l - 1)%Z →
  gen_loop vocab (Some l) i data_iter acc
  = gen_batches vocab (take (Z.to_nat l - i) data_iter) acc.
Proof.
  revert i acc. induction data_iter as [|batch rest IH]; intros i acc Hi.
  - by rewrite take_nil.
  - replace (Z.to_nat l - i) with (S (Z.to_nat l - S i)) by lia. simpl.
    destruct (gen_batch vocab batch acc) as [acc1|]; [|done].
    rewrite !bind_Ok.
    assert (Hl : (l =? 0)%Z = false) by (apply Z.eqb_neq; lia).
    rewrite Hl. simpl.
    destruct (decide (Z.of_nat i = l - 1)%Z) as [Heq|Hne].
    + rewrite bool_decide_eq_true_2 by congruence.
      replace (Z.to_nat l - S i) with 0 by lia. done.
    + rewrite bool_decide_eq_false_2 by congruence.
      apply IH. lia.
Qed.

Lemma generate_sentences_generated data_iter vocab limit :
  generate_sentences lt model_gen make_masks data_iter vocab limit
  = gen_batches vocab (generated limit data_iter) ([], [], []).
Proof.
  unfold generate_sentences, generated.
  destruct limit as [l|]; [|apply generate_loop_unlimited; by left].
  destruct (decide (0 < l)%Z) as [Hpos|Hneg].
  - rewrite generate_loop_limited by lia. by rewrite Nat.sub_0_r.
  - apply generate_loop_unlimited.
    destruct (decide (l = 0%Z)) as [->|Hne]; [by left|].
    right. exists l. split; [done|lia].
Qed.

Lemma generate_batch_labels vocab batch gen org labs gen' org' labs' :
  gen_batch vocab batch (gen, org, labs) = Ok (gen', org', labs') →
  ∃ items, tolist_items (label batch) = Ok items ∧ labs' = labs ++ items.
Proof.
  unfold generate_batch.
  destruct (make_masks _ _) as [[src_mask trg_mask]|]; [|done]. rewrite bind_Ok.
  destruct (model_gen _ _ _) as [preds|]; [|done]. rewrite bind_Ok.
  destruct (argmax_last lt preds) as [ids|]; [|done]. rewrite bind_Ok.
  destruct (tensor2text vocab ids) as [g|]; [|done]. rewrite bind_Ok.
  destruct (tensor2text vocab (text batch)) as [o|]; [|done]. rewrite bind_Ok.
  destruct (tolist_items (label batch)) as [items|]; [|done]. rewrite bind_Ok.
  intros [= <- <- <-]. by exists items.
Qed.

Lemma generate_batches_labels vocab batches gen org labs gen' org' labs' :
  Forall (λ b, ndimension (label b) = 1 ∧ wf (label b)) batches →
  gen_batches vocab batches (gen, org, labs) = Ok (gen', org', labs') →
  labs' = labs ++ concat ((λ b, (λ z, Tensor [] [z]) <$> data (label b))
                            <$> batches).
Proof.
  intros H. revert gen org labs.
  induction H as [|b batches [Hr Hwf] _ IH]; intros gen org labs;
    cbn [generate_batches fmap list_fmap concat].
  - intros [= <- <- <-]. by rewrite app_nil_r.
  - destruct (gen_batch vocab b (gen, org, labs)) as [[[g1 o1] l1]|] eqn:Hb;
      [|done].
    rewrite bind_Ok. intros Hrest.
    apply generate_batch_labels in Hb as (items & Hitems & ->).
    rewrite (IH _ _ _ Hrest), <- app_assoc. f_equal. f_equal.
    unfold ndimension in Hr.
    destruct (shape (label b)) as [|n [|]] eqn:Hs; try done.
    unfold tolist_items in Hitems.
    rewrite (np_iter_flat (label b) n Hs Hwf) in Hitems. congruence.
Qed.

(** C8. Negating a binary style label twice gives the label back, and the
    labels that [generate_sentences] collects are the labels of the batches
    it went through, as they came in: the negated labels only go to the
    generator. *)
Theorem generate_sentences_labels_untouched :
  (∀ x : Z, x = 0%Z ∨ x = 1%Z → negate_label (negate_label x) = x) ∧
  (∀ labels : tensor Z,
      Forall (λ x, x = 0%Z ∨ x = 1%Z) (data labels) →
      negate_labels (negate_labels labels) = labels) ∧
  (∀ data_iter vocab limit gen org labs,
      Forall (λ b, ndimension (label b) = 1 ∧ wf (label b)) data_iter →
      generate_sentences lt model_gen make_masks data_iter vocab limit
      = Ok (gen, org, labs) →
      labs = concat ((λ b, (λ z, Tensor [] [z]) <$> data (label b))
                       <$> generated limit data_iter)).
Proof.
  split; [exact negate_label_involutive|].
  split; [exact negate_labels_involutive|].
  intros data_iter vocab limit gen org labs Hall Hrun.
  rewrite generate_sentences_generated in Hrun.
  apply generate_batches_labels in Hrun; [done|].
  unfold generated. destruct limit as [l|]; [|done].
  case_decide; [|done]. by apply Forall_take.
Qed.

End GenerateSpec.

Lemma generate_sentences_labels_untouched_witness :
  negate_label (negate_label 1) = 1%Z ∧
  ∃ gen org labs,
    Sample.generate_sentences [Sample.batch0] Sample.vocab None
    = Ok (gen, org, labs) ∧
    labs = [Tensor [] [1%Z]].
Proof.
  destruct (generate_sentences_labels_untouched Z.ltb Sample.model_gen
              Sample.make_masks) as (H1 & _ & H3).
  split; [apply H1; by right|].
  assert (Hrun : Sample.generate_sentences [Sample.batch0] Sample.vocab None
                 = Ok (["good good"], ["food good"], [Tensor [] [1%Z]]))
    by by vm_compute.
  assert (Hall : Forall (λ b, ndimension (label b) = 1 ∧ wf (label b))
                   [Sample.batch0]) by (repeat constructor).
  eexists _, _, _. split; [exact Hrun|].
  by rewrite (H3 [Sample.batch0] Sample.vocab None _ _ _ Hall Hrun).
Defined.

Example generate_sentences_sample :
  Sample.generate_sentences [Sample.batch0; Sample.batch0] Sample.vocab (Some 1%Z)
  = Ok (["good good"], ["food good"], [Tensor [] [1%Z]]).
Proof. by vm_compute. Qed.

(* ===================================================================== *)
(** ** Multi-head attention: sizes *)

Lemma broadcast_rev_onto (s m : list nat) :
  Forall2 (λ x y, y = x ∨ y = 1) s m → broadcast_rev s m = Ok s.
Proof.
  induction 1 as [|x y s m Hxy _ IH]; simpl; [done|].
  rewrite IH, bind_Ok.
  destruct (decide (x = y)) as [|Hne]; [done|].
  destruct Hxy as [-> | ->]; [done|].
  destruct (decide (x = 1)); [done|]. by rewrite decide_True.
Qed.

Lemma view_shape_split_heads (nb l H K : nat) :
  0 < nb → 0 < H → 0 < K →
  view_shape [Z.of_nat nb; (-1)%Z; Z.of_nat H; Z.of_nat K] [nb; l; H * K]
  = Ok [nb; l; H; K].
Proof.
  intros Hnb HH HK. unfold view_shape. cbn [filter list_filter].
  rewrite (decide_True (P:=(Z.of_nat nb ≠ (-1)%Z))) by lia.
  rewrite (decide_False (P:=((-1)%Z ≠ (-1)%Z))) by (intros ?; done).
  rewrite (decide_True (P:=(Z.of_nat H ≠ (-1)%Z))) by lia.
  rewrite (decide_True (P:=(Z.of_nat K ≠ (-1)%Z))) by lia.
  rewrite decide_False
    by (rewrite !Exists_cons, Exists_nil; lia).
  cbn [length fmap list_fmap]. rewrite !Nat2Z.id.
  rewrite decide_False by done. rewrite decide_True by done.
  assert (Hn : numel_of [nb; l; H * K] = l * numel_of [nb; H; K])
    by (simpl; lia).
  assert (Hpos : numel_of [nb; H; K] ≠ 0) by (simpl; nia).
  rewrite Hn, Nat.Div0.mod_mul, Nat.div_mul by done.
  rewrite decide_True by done.
  rewrite (decide_False (P:=(Z.of_nat nb = (-1)%Z))) by lia.
  rewrite (decide_True (P:=((-1)%Z = (-1)%Z))) by done.
  rewrite (decide_False (P:=(Z.of_nat H = (-1)%Z))) by lia.
  rewrite (decide_False (P:=(Z.of_nat K = (-1)%Z))) by lia.
  done.
Qed.

Lemma view_shape_join_heads (nb l H K : nat) :
  0 < nb → 0 < H → 0 < K →
  view_shape [Z.of_nat nb; (-1)%Z; (Z.of_nat H * Z.of_nat K)%Z] [nb; l; H; K]
  = Ok [nb; l; H * K].
Proof.
  intros Hnb HH HK. unfold view_shape. cbn [filter list_filter].
  rewrite <- Nat2Z.inj_mul.
  rewrite (decide_True (P:=(Z.of_nat nb ≠ (-1)%Z))) by lia.
  rewrite (decide_False (P:=((-1)%Z ≠ (-1)%Z))) by (intros ?; done).
  rewrite (decide_True (P:=(Z.of_nat (H * K) ≠ (-1)%Z))) by lia.
  rewrite decide_False
    by (rewrite !Exists_cons, Exists_nil; lia).
  cbn [length fmap list_fmap]. rewrite !Nat2Z.id.
  rewrite decide_False by done. rewrite decide_True by done.
  assert (Hn : numel_of [nb; l; H; K] = l * numel_of [nb; H * K])
    by (simpl; lia).
  assert (Hpos : numel_of [nb; H * K] ≠ 0) by (simpl; nia).
  rewrite Hn, Nat.Div0.mod_mul, Nat.div_mul by done.
  rewrite decide_True by done.
  rewrite (decide_False (P:=(Z.of_nat nb = (-1)%Z))) by lia.
  rewrite (decide_True (P:=((-1)%Z = (-1)%Z))) by done.
  rewrite (decide_False (P:=(Z.of_nat (H * K) = (-1)%Z))) by lia.
  done.
Qed.

Lemma linear_shape_rank3 (nb l d : nat) :
  linear_shape d d [nb; l; d] = Ok [nb; l; d].
Proof. unfold linear_shape. simpl. by rewrite decide_True. Qed.

Lemma project_shape (nb l H K : nat) :
  0 < nb → 0 < H → 0 < K →
  MultiHeadedAttention.project
    (MultiHeadedAttention.Build (Z.of_nat K) (Z.of_nat H) (Z.of_nat (H * K)))
    nb [nb; l; H * K]
  = Ok [nb; H; l; K].
Proof.
  intros Hnb HH HK. unfold MultiHeadedAttention.project.
  cbn [MultiHeadedAttention.d_model MultiHeadedAttention.h MultiHeadedAttention.d_k].
  rewrite Nat2Z.id, linear_shape_rank3, bind_Ok.
  by rewrite view_shape_split_heads, bind_Ok.
Qed.

Lemma matmul_shape_heads (nb H n m p : nat) :
  matmul_shape [nb; H; n; m] [nb; H; m; p] = Ok [nb; H; n; p].
Proof.
  unfold matmul_shape. simpl rev. cbv iota.
  rewrite decide_True by done.
  by rewrite (broadcast_rev_onto [H; nb]) by (repeat constructor; auto).
Qed.

(** The masks of this repository: none, a source mask [(nb, 1, lk)] or a
    target mask [(nb, lq, lk)], here after [unsqueeze(1)]. *)
Lemma attention_shape_heads (nb H lq lk K : nat) (mask : option (list nat)) :
  mask = None ∨ mask = Some [nb; 1; 1; lk] ∨ mask = Some [nb; 1; lq; lk] →
  attention_shape [nb; H; lq; K] [nb; H; lk; K] [nb; H; lk; K] mask
  = Ok ([nb; H; lq; K], [nb; H; lq; lk]).
Proof.
  intros Hmask. unfold attention_shape. cbn [last]. rewrite bind_Ok.
  assert (Ht : transpose_last2 [nb; H; lk; K] = Ok [nb; H; K; lk]) by done.
  rewrite Ht, bind_Ok, matmul_shape_heads, bind_Ok.
  assert (Hfill : (match mask with
                   | Some m => masked_fill_shape [nb; H; lq; lk] m
                   | None => Ok [nb; H; lq; lk]
                   end) = Ok [nb; H; lq; lk]).
  { destruct Hmask as [-> | [-> | ->]]; [done| |];
      unfold masked_fill_shape, broadcast_shapes; simpl rev;
      rewrite (broadcast_rev_onto [lk; lq; H; nb]) by (repeat constructor; auto);
      rewrite !bind_Ok; simpl rev; by rewrite decide_True. }
  by rewrite Hfill, bind_Ok, matmul_shape_heads, bind_Ok.
Qed.

(** C6. With positive [h] and [d_model] such that [d_model % h == 0] the
    constructor succeeds and [forward] gives a tensor of exactly the size
    of the query, [(nb, lq, d_model)];  for any non-zero [h] the assertion
    of the constructor fails exactly when [h] does not divide [d_model]. *)
Theorem MultiHeadedAttention_output_shape :
  (∀ h d_model : Z,
      h ≠ 0%Z →
      (MultiHeadedAttention.init h d_model = Raise AssertionError
       ↔ (d_model `mod` h)%Z ≠ 0%Z)) ∧
  (∀ h d_model : Z,
      (0 < h)%Z → (0 < d_model)%Z → (d_model `mod` h = 0)%Z →
      ∃ self,
        MultiHeadedAttention.init h d_model = Ok self ∧
        ∀ (nb lq lk : nat) (mask : option (list nat)),
          0 < nb →
          mask = None ∨ mask = Some [nb; 1; lk] ∨ mask = Some [nb; lq; lk] →
          let query := [nb; lq; Z.to_nat d_model] in
          let key := [nb; lk; Z.to_nat d_model] in
          let value := [nb; lk; Z.to_nat d_model] in
          MultiHeadedAttention.forward self query key value mask = Ok query).
Proof.
  split.
  - intros h d Hh. unfold MultiHeadedAttention.init.
    rewrite decide_False by done.
    destruct (decide (d `mod` h = 0)%Z) as [Hz|Hnz].
    + destruct (decide (d < 0)%Z); split; try done; intros; done.
    + done.
  - intros h d Hh Hd Hmod.
    exists (MultiHeadedAttention.Build (d `div` h) h d). split.
    { unfold MultiHeadedAttention.init.
      rewrite decide_False by lia. rewrite decide_True by done.
      by rewrite decide_False by lia. }
    intros nb lq lk mask Hnb Hmask query key value.
    set (H := Z.to_nat h). set (K := Z.to_nat (d `div` h)).
    assert (Hdk : (0 < d `div` h)%Z).
    { apply Z.div_str_pos. split; [done|].
      apply Z.mod_divide in Hmod; [|lia].
      apply Z.divide_pos_le in Hmod; lia. }
    assert (Hd_eq : d = (h * (d `div` h))%Z)
      by (apply Z.div_exact; [lia|done]).
    assert (HH : 0 < H) by (unfold H; lia).
    assert (HK : 0 < K) by (unfold K; lia).
    assert (HD : Z.to_nat d = H * K) by (unfold H, K; nia).
    assert (Hself : MultiHeadedAttention.Build (d `div` h) h d
                    = MultiHeadedAttention.Build (Z.of_nat K) (Z.of_nat H)
                        (Z.of_nat (H * K))).
    { f_equal; unfold H, K; nia. }
    subst query key value. rewrite Hself, HD.
    unfold MultiHeadedAttention.forward.
    set (mask' := match mask with
                  | Some m => Some (take 1 m ++ 1 :: drop 1 m)
                  | None => None
                  end).
    assert (Hm : (match mask with
                  | Some m =>
                      if decide (1 ≤ length m)
                      then Ok (Some (take 1 m ++ 1 :: drop 1 m))
                      else Raise IndexError
                  | None => Ok None
                  end) = Ok mask').
    { destruct Hmask as [-> | [-> | ->]]; done. }
    rewrite Hm, !bind_Ok.
    rewrite !project_shape, !bind_Ok by done.
    rewrite (attention_shape_heads nb H lq lk K mask'), bind_Ok.
    2:{ destruct Hmask as [-> | [-> | ->]]; simpl; auto. }
    cbn [MultiHeadedAttention.d_model MultiHeadedAttention.h
         MultiHeadedAttention.d_k].
    unfold transpose_shape at 1. simpl.
    rewrite view_shape_join_heads, bind_Ok by done.
    rewrite Nat2Z.id. apply linear_shape_rank3.
Qed.

Lemma MultiHeadedAttention_output_shape_witness :
  (MultiHeadedAttention.init 3 8 = Raise AssertionError) ∧
  ∃ self,
    MultiHeadedAttention.init 2 8 = Ok self ∧
    MultiHeadedAttention.forward self [2; 5; 8] [2; 7; 8] [2; 7; 8]
      (Some [2; 1; 7])
    = Ok [2; 5; 8].
Proof.
  destruct MultiHeadedAttention_output_shape as [Hinit Hfwd]. split.
  - apply Hinit; [lia|]. by vm_compute.
  - destruct (Hfwd 2%Z 8%Z ltac:(lia) ltac:(lia) eq_refl) as (self & Hself & Hf).
    exists self. split; [exact Hself|].
    apply (Hf 2 5 7 (Some [2; 1; 7])); [lia|]. right. by left.
Defined.

Example MultiHeadedAttention_sample :
  (self ← MultiHeadedAttention.init 2 8;
   MultiHeadedAttention.forward self [2; 5; 8] [2; 7; 8] [2; 7; 8] (Some [2; 5; 7]))
  = Ok [2; 5; 8].
Proof. by vm_compute. Qed.

(* ===================================================================== *)
(** ** More on the conversion of ids to text *)

Lemma positions_notin v l i : v ∉ l → positions v l i = [].
Proof.
  revert i. induction l as [|x l IH]; intros i Hn; simpl; [done|].
  apply not_elem_of_cons in Hn as [Hx Hn].
  rewrite decide_False by done. by apply IH.
Qed.

Lemma before_first_notin eos l : eos ∉ l → before_first eos l = l.
Proof.
  induction l as [|x l IH]; intros Hn; simpl; [done|].
  apply not_elem_of_cons in Hn as [Hx Hn].
  rewrite decide_False by congruence. by rewrite IH.
Qed.

(** The truncation of a flat array, whether or not it holds [eos]. *)
Lemma truncate_at_flat (eos : Z) (a : tensor Z) n :
  shape a = [n] → wf a →
  truncate_at eos a
  = Ok (Tensor [length (before_first eos (data a))] (before_first eos (data a))).
Proof.
  intros Hs Hwf. destruct (decide (eos ∈ data a)) as [Hin|Hnin].
  - destruct (before_first_split eos (data a) Hin) as (post & Hd & Hpre).
    by apply (truncate_at_first eos a n _ post).
  - unfold truncate_at, np_where_0.
    rewrite (positions_notin eos (data a) 0 Hnin). simpl.
    rewrite before_first_notin by done.
    unfold wf in Hwf. rewrite Hs in Hwf. simpl in Hwf.
    replace (length (data a)) with n by lia.
    by rewrite <- Hs, tensor_eta.
Qed.

Lemma mapM_cons_result {A B} (f : A → result B) (x : A) (l : list A) :
  mapM f (x :: l) = (y ← f x; k ← mapM f l; Ok (y :: k)).
Proof. done. Qed.

Lemma mapM_result_length {A B} (f : A → result B) (l : list A) (ys : list B) :
  mapM f l = Ok ys → length ys = length l.
Proof.
  revert ys. induction l as [|x l IH]; intros ys.
  - by intros [= <-].
  - rewrite mapM_cons_result. destruct (f x) as [y|]; [|done].
    rewrite bind_Ok. destruct (mapM f l) as [k|]; [|done].
    rewrite bind_Ok. intros [= <-]. simpl. by rewrite (IH k).
Qed.

Lemma mapM_dict_word_Ok (id2word : gmap Z string) (l : list Z) :
  Forall (λ z, is_Some (id2word !! z)) l →
  ∃ ws, mapM (dict_word id2word) l = Ok ws.
Proof.
  induction 1 as [|z l [w Hz] _ (ws & IH)]; [by exists []|].
  exists (w :: ws). rewrite mapM_cons_result, IH.
  unfold dict_word. by rewrite Hz.
Qed.

Lemma mapM_dict_word_KeyError (id2word : gmap Z string) (l : list Z) :
  Exists (λ z, id2word !! z = None) l →
  mapM (dict_word id2word) l = Raise KeyError.
Proof.
  intros H. induction l as [|z l IH]; [by apply Exists_nil in H|].
  rewrite mapM_cons_result.
  destruct (id2word !! z) as [w|] eqn:Hz.
  - apply Exists_cons in H as [H|H]; [congruence|].
    rewrite IH by done. unfold dict_word. by rewrite Hz.
  - unfold dict_word. by rewrite Hz.
Qed.

Lemma sent2str_flat_kept_ids (a : tensor Z) (id2word : gmap Z string)
    (eos_id : option Z) (n : nat) :
  shape a = [n] → wf a →
  sent2str (PyNdarray a) id2word eos_id
  = (words ← mapM (dict_word id2word) (kept_ids eos_id (data a));
     Ok (join words)).
Proof.
  intros Hs Hwf. unfold kept_ids.
  destruct (truthy eos_id) eqn:Ht.
  - destruct eos_id as [eos|]; [|done].
    unfold sent2str. rewrite Ht, (truncate_at_flat eos a n Hs Hwf), bind_Ok.
    set (pre := before_first eos (data a)).
    pose proof (words_of_flat id2word (Tensor [length pre] pre) (length pre)
                  eq_refl ltac:(unfold wf; simpl; lia)) as Hw.
    cbn [data] in Hw. rewrite <- Hw. by destruct (np_iter _).
  - rewrite (sent2str_flat_all a id2word eos_id n Hs Hwf Ht).
    by destruct eos_id.
Qed.

(** X1. For a flat array [sent2str] is the join of the tokens of the kept
    ids: all ids when the end-of-sequence id is falsy or absent from the
    array, else those before its first occurrence. *)
Theorem sent2str_flat (a : tensor Z) (id2word : gmap Z string)
    (eos_id : option Z) (n : nat) :
  shape a = [n] → wf a →
  sent2str (PyNdarray a) id2word eos_id
  = (words ← mapM (dict_word id2word) (kept_ids eos_id (data a));
     Ok (join words)).
Proof. apply sent2str_flat_kept_ids. Qed.

Lemma sent2str_flat_witness :
  sent2str (PyNdarray (Tensor [4] [4; 7; 3; 9]%Z)) Sample.id2word (Some 3%Z)
  = (words ← mapM (dict_word Sample.id2word) [4; 7]%Z; Ok (join words)).
Proof.
  apply (sent2str_flat (Tensor [4] [4; 7; 3; 9]%Z) Sample.id2word (Some 3%Z) 4);
    reflexivity.
Defined.

(** X2. On a flat array [sent2str] returns a text when every kept id is a
    key of the dict and raises [KeyError] otherwise; the end-of-sequence id
    and the ids behind it are never looked up. *)
Theorem sent2str_KeyError_iff_missing_key (a : tensor Z)
    (id2word : gmap Z string) (eos_id : option Z) (n : nat) :
  shape a = [n] → wf a →
  (sent2str (PyNdarray a) id2word eos_id = Raise KeyError
   ↔ Exists (λ z, id2word !! z = None) (kept_ids eos_id (data a))) ∧
  ((∃ s, sent2str (PyNdarray a) id2word eos_id = Ok s)
   ↔ Forall (λ z, is_Some (id2word !! z)) (kept_ids eos_id (data a))).
Proof.
  intros Hs Hwf. rewrite (sent2str_flat_kept_ids a id2word eos_id n Hs Hwf).
  set (l := kept_ids eos_id (data a)).
  destruct (decide (Forall (λ z, is_Some (id2word !! z)) l)) as [Hall|Hnot].
  - destruct (mapM_dict_word_Ok id2word l Hall) as (ws & Hws).
    rewrite Hws, bind_Ok. split; split; try done.
    + intros Hex. apply Exists_exists in Hex as (z & Hz & Hnone).
      rewrite Forall_forall in Hall. destruct (Hall z Hz) as [w Hw]. congruence.
    + intros _. by eexists.
  - assert (Hex : Exists (λ z, id2word !! z = None) l).
    { apply not_Forall_Exists in Hnot; [|solve_decision].
      eapply Exists_impl; [exact Hnot|]. intros z Hz. simpl in Hz.
      destruct (id2word !! z) eqn:E; [|done]. destruct Hz. by eexists. }
    rewrite (mapM_dict_word_KeyError id2word l Hex). simpl.
    split; split; try done. by intros [s Hs'].
Qed.

Lemma sent2str_KeyError_iff_missing_key_witness :
  sent2str (PyNdarray (Tensor [4] [4; 7; 3; 5]%Z)) Sample.id2word (Some 3%Z)
  ≠ Raise KeyError ∧
  sent2str (PyNdarray (Tensor [4] [4; 7; 3; 5]%Z)) Sample.id2word None
  = Raise KeyError.
Proof.
  split.
  - intros H.
    apply (sent2str_KeyError_iff_missing_key (Tensor [4] [4; 7; 3; 5]%Z)
             Sample.id2word (Some 3%Z) 4 eq_refl eq_refl) in H.
    vm_compute in H. apply Exists_cons in H as [H|H]; [done|].
    apply Exists_cons in H as [H|H]; [done|]. by apply Exists_nil in H.
  - apply (sent2str_KeyError_iff_missing_key (Tensor [4] [4; 7; 3; 5]%Z)
             Sample.id2word None 4 eq_refl eq_refl).
    do 3 apply Exists_cons_tl. by apply Exists_cons_hd.
Defined.

Lemma bind_assoc {A B C} (m : result A) (f : A → result B) (g : B → result C) :
  (m ≫= f) ≫= g = m ≫= (λ x, f x ≫= g).
Proof. by destruct m. Qed.

(** An array of two or more dimensions: its rows are not hashable, so only
    an array without rows gets through. *)
Lemma words_of_matrix (id2word : gmap Z string) (a : tensor Z) n k r :
  shape a = n :: k :: r →
  np_iter a ≫= mapM (dict_getitem id2word)
  = if decide (n = 0) then Ok [] else Raise TypeError.
Proof.
  intros Hs. unfold np_iter. rewrite Hs, bind_Ok.
  destruct n as [|n]; [done|]. by rewrite decide_False by done.
Qed.

Lemma truncate_at_matrix (eos : Z) (a : tensor Z) n k r :
  shape a = n :: k :: r →
  ∃ a' n', truncate_at eos a = Ok a' ∧ shape a' = n' :: k :: r.
Proof.
  intros Hs. unfold truncate_at, np_take_0. rewrite Hs.
  repeat case_decide; destruct (np_where_0 a eos) as [|e [|]];
    try (by eexists a, n); by eexists _, _.
Qed.

Lemma argmax_last_rank3 {A} (lt : A → A → bool) (preds : tensor A) b l v :
  shape preds = [b; l; S v] →
  argmax_last lt preds
  = Ok (Tensor [b; l] (argmax_list lt <$> blocks (b * l) (S v) (data preds))).
Proof.
  intros Hs. unfold argmax_last. rewrite Hs.
  change (last [b; l; S v]) with (Some (S v)).
  change (removelast [b; l; S v]) with [b; l].
  replace (numel_of [b; l]) with (b * l) by (simpl; lia). done.
Qed.

(** X3. For an array of two or more dimensions [sent2str] never gives the
    text of its ids: it raises [TypeError], or returns the empty text when
    no row is left; without a truthy end-of-sequence id a non-empty array
    always raises.  So does greedy decoding of a batch of two or more
    sentences, which [squeeze(0)] leaves a matrix. *)
Theorem sent2str_matrix_TypeError (id2word : gmap Z string) (eos_id : option Z) :
  (∀ (a : tensor Z) n k r,
      shape a = n :: k :: r →
      (sent2str (PyNdarray a) id2word eos_id = Raise TypeError
       ∨ sent2str (PyNdarray a) id2word eos_id = Ok "") ∧
      (truthy eos_id = false → 0 < n →
       sent2str (PyNdarray a) id2word eos_id = Raise TypeError)) ∧
  (∀ {A} (lt : A → A → bool) (preds : tensor A) b l v,
      shape preds = [b; l; S v] → 2 ≤ b →
      (greedy_decode_sent lt preds id2word eos_id = Raise TypeError
       ∨ ∃ ids, greedy_decode_sent lt preds id2word eos_id = Ok ("", ids)) ∧
      (truthy eos_id = false →
       greedy_decode_sent lt preds id2word eos_id = Raise TypeError)).
Proof.
  assert (Hmat : ∀ (a : tensor Z) n k r,
      shape a = n :: k :: r →
      (sent2str (PyNdarray a) id2word eos_id = Raise TypeError
       ∨ sent2str (PyNdarray a) id2word eos_id = Ok "") ∧
      (truthy eos_id = false → 0 < n →
       sent2str (PyNdarray a) id2word eos_id = Raise TypeError)).
  { intros a n k r Hs. unfold sent2str. split.
    - assert (Ht : ∃ a' n',
          (match eos_id with
           | Some eos => if truthy eos_id then truncate_at eos a else Ok a
           | None => Ok a
           end) = Ok a' ∧ shape a' = n' :: k :: r).
      { destruct eos_id as [eos|]; [|by exists a, n].
        destruct (truthy (Some eos)); [|by exists a, n].
        by apply (truncate_at_matrix eos a n). }
      destruct Ht as (a' & n' & -> & Hs'). rewrite bind_Ok.
      rewrite <- (bind_assoc (np_iter a') (mapM (dict_getitem id2word))
                    (λ words, Ok (join words))).
      rewrite (words_of_matrix id2word a' n' k r Hs').
      case_decide; [by right|by left].
    - intros Hf Hn. rewrite Hf.
      assert (Hsame : (match eos_id with Some _ => Ok a | None => Ok a end)
                      = Ok a) by by destruct eos_id.
      rewrite Hsame, bind_Ok.
      rewrite <- (bind_assoc (np_iter a) (mapM (dict_getitem id2word))
                    (λ words, Ok (join words))).
      rewrite (words_of_matrix id2word a n k r Hs).
      by rewrite decide_False by lia. }
  split; [exact Hmat|].
  intros A lt preds b l v Hs Hb. unfold greedy_decode_sent.
  rewrite (argmax_last_rank3 lt preds b l v Hs), bind_Ok. cbv zeta.
  set (ids := Tensor [b; l] _).
  assert (Hsq : squeeze_0 ids = ids).
  { unfold squeeze_0, ids. simpl. destruct b as [|[|b]]; [done|lia|done]. }
  rewrite Hsq.
  destruct (Hmat ids b l [] eq_refl) as [Hor Hfalsy]. split.
  - destruct Hor as [-> | ->]; [by left|right; by eexists].
  - intros Hf. by rewrite Hfalsy by (done || lia).
Qed.

Lemma sent2str_matrix_TypeError_witness :
  sent2str (PyNdarray (Tensor [2; 2] [4; 7; 2; 9]%Z)) Sample.id2word None
  = Raise TypeError ∧
  greedy_decode_sent Z.ltb (Tensor [2; 1; 2] [0; 1; 1; 0]%Z) Sample.id2word None
  = Raise TypeError.
Proof.
  destruct (sent2str_matrix_TypeError Sample.id2word None) as [Hm Hg]. split.
  - apply (Hm (Tensor [2; 2] [4; 7; 2; 9]%Z) 2 2 []); [reflexivity|reflexivity|lia].
  - apply (Hg Z Z.ltb (Tensor [2; 1; 2] [0; 1; 1; 0]%Z) 2 1 1);
      [reflexivity|lia|reflexivity].
Defined.

(* ===================================================================== *)
(** ** tensor2text *)

Lemma words_of_flat_list (index2word : list string) (l : list Z) :
  (items ← np_iter (Tensor [length l] l); mapM (list_getitem index2word) items)
  = mapM (list_word index2word) l.
Proof.
  rewrite (np_iter_flat (Tensor [length l] l) (length l) eq_refl)
    by (unfold wf; simpl; lia).
  rewrite bind_Ok. cbn [data]. by rewrite mapM_fmap_result.
Qed.

(** One sample of [tensor2text]. *)
Lemma sample2text (vocab : Vocab) (row : list Z) :
  (sample ← truncate_at (stoi vocab "<eos>") (Tensor [length row] row);
   items ← np_iter sample;
   words ← mapM (list_getitem (itos vocab)) items;
   Ok (join words))
  = row2text vocab row.
Proof.
  rewrite (truncate_at_flat _ (Tensor [length row] row) (length row) eq_refl)
    by (unfold wf; simpl; lia).
  rewrite bind_Ok. cbn [data]. unfold row2text.
  rewrite <- words_of_flat_list. by destruct (np_iter _).
Qed.

Lemma mapM_ext_Forall {A B} (f g : A → result B) (l : list A) :
  Forall (λ x, f x = g x) l → mapM f l = mapM g l.
Proof.
  induction 1 as [|x l Hx _ IH]; [done|].
  by rewrite !mapM_cons_result, Hx, IH.
Qed.

Lemma tensor2text_matrix (vocab : Vocab) (t : tensor Z) (b l : nat) :
  shape t = [b; l] → wf t →
  tensor2text vocab t = mapM (row2text vocab) (rows2 t).
Proof.
  intros Hs Hwf.
  assert (Hit : np_iter t = Ok (Tensor [l] <$> blocks b l (data t))).
  { unfold np_iter. rewrite Hs. change (numel_of [l]) with (l * 1).
    by rewrite Nat.mul_1_r. }
  unfold tensor2text, rows2. rewrite Hit, Hs, bind_Ok.
  rewrite mapM_fmap_result. apply mapM_ext_Forall.
  assert (HX : Forall (λ x, length x = l) (blocks b l (data t))).
  { apply Forall_length_blocks. unfold wf in Hwf. rewrite Hwf, Hs. simpl. lia. }
  eapply Forall_impl; [exact HX|]. intros row Hrow. simpl.
  rewrite <- Hrow. apply sample2text.
Qed.

(** X4. [tensor2text] turns every row of a matrix of ids into one text:
    the tokens, looked up by position in [itos], of the ids before the
    first end-of-sequence id of the row (of all ids when the row has none),
    joined by spaces.  Unlike [sent2str] it also cuts at an
    end-of-sequence id of 0. *)
Theorem tensor2text_rows (vocab : Vocab) (t : tensor Z) (b l : nat) :
  shape t = [b; l] → wf t →
  tensor2text vocab t = mapM (row2text vocab) (rows2 t).
Proof. apply tensor2text_matrix. Qed.

Lemma tensor2text_rows_witness :
  tensor2text
    {| itos := ["<eos>"; "a"; "b"]; stoi := λ _, 0%Z |}
    (Tensor [2; 3] [1; 0; 2; 2; 1; 1]%Z)
  = Ok ["a"; "b a a"].
Proof.
  etrans; [apply (tensor2text_rows _ _ 2 3); reflexivity|]. reflexivity.
Defined.

Lemma mapM_Ok_exists {A B} (f : A → result B) (l : list A) :
  Forall (λ x, ∃ y, f x = Ok y) l → ∃ ys, mapM f l = Ok ys.
Proof.
  induction 1 as [|x l [y Hy] _ [ys IH]]; [by exists []|].
  exists (y :: ys). by rewrite mapM_cons_result, Hy, IH.
Qed.

Lemma Forall_blocks {A} (P : A → Prop) n k (l : list A) :
  Forall P l → Forall (Forall P) (blocks n k l).
Proof.
  revert l. induction n as [|n IH]; intros l Hl; simpl; constructor.
  - by apply Forall_take.
  - apply IH. by apply Forall_drop.
Qed.

Lemma Forall_before_first (P : Z → Prop) eos l :
  Forall P l → Forall P (before_first eos l).
Proof.
  induction 1 as [|x l Hx _ IH]; simpl; [done|].
  case_decide; [done|]. by constructor.
Qed.

Lemma list_word_in_range (index2word : list string) (z : Z) :
  (0 ≤ z < Z.of_nat (length index2word))%Z →
  ∃ w, list_word index2word z = Ok w ∧ index2word !! Z.to_nat z = Some w.
Proof.
  intros Hz. unfold list_word. cbv zeta.
  rewrite (decide_False (P:=(z < 0)%Z)) by lia.
  rewrite decide_True by done.
  destruct (index2word !! Z.to_nat z) as [w|] eqn:Hw; [by exists w|].
  apply lookup_ge_None in Hw. lia.
Qed.

(** X5. With a dict that maps ids to the tokens [itos] holds at those
    positions and a truthy end-of-sequence id, the text [sent2str] gives for
    a flat array is the text [tensor2text] gives for the same ids as the
    only row of a matrix. *)
Theorem sent2str_agrees_with_tensor2text (vocab : Vocab)
    (id2word : gmap Z string) (row : list Z) (s : string) :
  (∀ z w, id2word !! z = Some w →
          (0 ≤ z)%Z ∧ itos vocab !! Z.to_nat z = Some w) →
  stoi vocab "<eos>" ≠ 0%Z →
  sent2str (PyNdarray (Tensor [length row] row)) id2word
    (Some (stoi vocab "<eos>")) = Ok s →
  tensor2text vocab (Tensor [1; length row] row) = Ok [s].
Proof.
  intros Hdict Heos Hs.
  rewrite (sent2str_flat_kept_ids (Tensor [length row] row) id2word _ (length row)
             eq_refl) in Hs by (unfold wf; simpl; lia).
  unfold kept_ids, truthy in Hs. apply Z.eqb_neq in Heos. rewrite Heos in Hs.
  simpl in Hs.
  rewrite (tensor2text_matrix vocab (Tensor [1; length row] row) 1 (length row)
             eq_refl) by (unfold wf; simpl; lia).
  unfold rows2. simpl. rewrite firstn_all. unfold row2text.
  set (pre := before_first (stoi vocab "<eos>") row) in *.
  assert (Hsame : ∀ ws, mapM (dict_word id2word) pre = Ok ws →
                        mapM (list_word (itos vocab)) pre = Ok ws).
  { clear Hs. induction pre as [|z pre IH]; intros ws; [done|].
    rewrite !mapM_cons_result.
    destruct (id2word !! z) as [w|] eqn:Hz;
      [|by replace (dict_word id2word z) with (@Raise string KeyError)
          by (unfold dict_word; by rewrite Hz)].
    replace (dict_word id2word z) with (Ok w)
      by (unfold dict_word; by rewrite Hz).
    destruct (Hdict z w Hz) as [Hpos Hw].
    destruct (list_word_in_range (itos vocab) z) as (w' & Hlw & Hw').
    { apply lookup_lt_Some in Hw. lia. }
    rewrite Hlw, !bind_Ok.
    destruct (mapM (dict_word id2word) pre) as [ws'|]; [|done].
    rewrite (IH ws' eq_refl), !bind_Ok. congruence. }
  destruct (mapM (dict_word id2word) pre) as [ws|]; [|done].
  rewrite (Hsame ws eq_refl). rewrite !bind_Ok in *. by injection Hs as ->.
Qed.

Lemma sent2str_agrees_with_tensor2text_witness :
  tensor2text Sample.vocab (Tensor [1; 3] [3; 2; 4]%Z) = Ok ["good"].
Proof.
  apply (sent2str_agrees_with_tensor2text Sample.vocab
           (list_to_map [(3, "good"); (4, "bad"); (5, "food")]%Z)
           [3; 2; 4]%Z "good").
  - intros z w Hz.
    destruct (decide (z = 3%Z)) as [->|]; [by vm_compute in Hz; injection Hz as <-|].
    destruct (decide (z = 4%Z)) as [->|]; [by vm_compute in Hz; injection Hz as <-|].
    destruct (decide (z = 5%Z)) as [->|]; [by vm_compute in Hz; injection Hz as <-|].
    rewrite !list_to_map_cons, list_to_map_nil in Hz.
    rewrite !lookup_insert_ne in Hz by done. by rewrite lookup_empty in Hz.
  - by vm_compute.
  - by vm_compute.
Defined.

Section ArgMaxBound.
Context {A : Type}.
Variable lt : A → A → bool.

Lemma argmax_from_bound (best : A) (bi i : nat) (l : list A) :
  bi < i → argmax_from lt best bi i l < i + length l.
Proof.
  revert best bi i. induction l as [|x l IH]; intros best bi i Hbi; simpl.
  - lia.
  - destruct (lt best x).
    + pose proof (IH x i (S i) ltac:(lia)). lia.
    + pose proof (IH best bi (S i) ltac:(lia)). lia.
Qed.

Lemma argmax_list_bound (l : list A) (v : nat) :
  length l ≤ S v → (0 ≤ argmax_list lt l < Z.of_nat (S v))%Z.
Proof.
  intros Hl. destruct l as [|x l]; simpl in *; [lia|].
  pose proof (argmax_from_bound x 0 1 l ltac:(lia)). lia.
Qed.

(** X6. The ids that [torch.argmax] reads off predictions over [v]
    tokens are positions of [itos] whenever [itos] has at least [v]
    entries: the text conversion of the generated ids then cannot fail, and
    gives one text per sentence of the batch. *)
Theorem generated_ids_always_convert (vocab : Vocab) (preds : tensor A)
    (b l v : nat) :
  shape preds = [b; l; S v] →
  S v ≤ length (itos vocab) →
  ∃ texts,
    (ids ← argmax_last lt preds; tensor2text vocab ids) = Ok texts ∧
    length texts = b.
Proof.
  intros Hs Hv. rewrite (argmax_last_rank3 lt preds b l v Hs), bind_Ok.
  set (ids := argmax_list lt <$> blocks (b * l) (S v) (data preds)).
  assert (Hlen : length ids = b * l)
    by (unfold ids; by rewrite length_fmap, length_blocks).
  assert (Hrange : Forall (λ z, 0 ≤ z < Z.of_nat (length (itos vocab)))%Z ids).
  { unfold ids. apply Forall_fmap, Forall_forall. intros chunk Hin. simpl.
    assert (Hc : length chunk ≤ S v).
    { revert Hin. generalize (data preds), (b * l). intros d n. revert d.
      induction n as [|n IH]; intros d Hin; simpl in Hin.
      - by apply elem_of_nil in Hin.
      - apply elem_of_cons in Hin as [->|Hin]; [|by eapply IH].
        rewrite length_take. lia. }
    pose proof (argmax_list_bound chunk v Hc). lia. }
  rewrite (tensor2text_matrix vocab (Tensor [b; l] ids) b l eq_refl)
    by (unfold wf; simpl; lia).
  unfold rows2. cbn [shape data].
  destruct (mapM_Ok_exists (row2text vocab) (blocks b l ids)) as [texts Ht].
  { eapply Forall_impl; [exact (Forall_blocks _ b l ids Hrange)|].
    intros row Hrow. simpl in Hrow. unfold row2text.
    destruct (mapM_Ok_exists (list_word (itos vocab))
                (before_first (stoi vocab "<eos>") row)) as [ws Hws].
    { eapply Forall_impl; [exact (Forall_before_first _ _ _ Hrow)|].
      intros z Hz. simpl in Hz.
      destruct (list_word_in_range (itos vocab) z Hz) as (w & Hw & _).
      by exists w. }
    rewrite Hws. by eexists. }
  exists texts. split; [done|].
  by rewrite (mapM_result_length _ _ _ Ht), length_blocks.
Qed.

End ArgMaxBound.

Lemma generated_ids_always_convert_witness :
  ∃ texts,
    (ids ← argmax_last Z.ltb (Tensor [2; 1; 3] [0; 5; 1; 7; 2; 2]%Z);
     tensor2text Sample.vocab ids) = Ok texts ∧
    length texts = 2.
Proof.
  apply (generated_ids_always_convert Z.ltb Sample.vocab
           (Tensor [2; 1; 3] [0; 5; 1; 7; 2; 2]%Z) 2 1 2);
    [reflexivity | simpl; lia].
Defined.

(* ===================================================================== *)
(** ** More on the batch generation pipeline *)

Lemma np_iter_length (t : tensor Z) items n r :
  shape t = n :: r → np_iter t = Ok items → length items = n.
Proof.
  unfold np_iter. intros ->. intros [= <-].
  by rewrite length_fmap, length_blocks.
Qed.

Lemma tensor2text_length (vocab : Vocab) (t : tensor Z) texts n r :
  shape t = n :: r → tensor2text vocab t = Ok texts → length texts = n.
Proof.
  intros Hs. unfold tensor2text.
  destruct (np_iter t) as [samples|] eqn:Hit; [|done]. rewrite bind_Ok.
  intros Hm. rewrite (mapM_result_length _ _ _ Hm).
  by apply (np_iter_length t samples n r).
Qed.

Lemma argmax_last_shape {A} (lt : A → A → bool) (t : tensor A) ids n r v :
  shape t = n :: r ++ [v] → argmax_last lt t = Ok ids → shape ids = n :: r.
Proof.
  intros Hs. unfold argmax_last. rewrite Hs.
  change (n :: r ++ [v]) with ((n :: r) ++ [v]).
  rewrite last_snoc, removelast_last.
  destruct v; [done|]. by intros [= <-].
Qed.

Section GenerateExtra.
Context {A Mask : Type}.
Variable lt : A → A → bool.
Variable model_gen : tensor Z → Mask → tensor Z → result (tensor A).
Variable make_masks : tensor Z → tensor Z → result (Mask * Mask).

#[local] Abbreviation gen_sentences := (generate_sentences lt model_gen make_masks).
#[local] Abbreviation gen_all := (generate_batches lt model_gen make_masks).
#[local] Abbreviation gen_one := (generate_batch lt model_gen make_masks).

(** X7. A positive [limit] makes [generate_sentences] go through the first
    [limit] batches and nothing else; a limit of [0] or below is no limit
    at all, like [None]. *)
Theorem generate_sentences_limit (data_iter : list Batch) (vocab : Vocab) (l : Z) :
  ((0 < l)%Z →
   gen_sentences data_iter vocab (Some l)
   = gen_sentences (take (Z.to_nat l) data_iter) vocab None) ∧
  ((l ≤ 0)%Z →
   gen_sentences data_iter vocab (Some l) = gen_sentences data_iter vocab None).
Proof.
  rewrite !generate_sentences_generated. unfold generated. split; intros Hl.
  - by rewrite decide_True.
  - by rewrite decide_False by lia.
Qed.

(** X8. When every batch holds as many labels as sentences and the
    generator keeps the number of sentences, the three lists that
    [generate_sentences] returns have the same length: a generated text, an
    original text and a label for every sentence. *)
Theorem generate_sentences_columns_aligned (data_iter : list Batch)
    (vocab : Vocab) (limit : option Z) gen org labs :
  Forall (λ b, ∃ n l, shape (text b) = [n; l] ∧ shape (label b) = [n])
    data_iter →
  (∀ src src_mask labels preds n l,
      shape src = [n; l] →
      model_gen src src_mask labels = Ok preds →
      ∃ l' v, shape preds = [n; l'; v]) →
  gen_sentences data_iter vocab limit = Ok (gen, org, labs) →
  length gen = length org ∧ length org = length labs.
Proof.
  intros Hall Hmodel. rewrite generate_sentences_generated.
  assert (Hsub : Forall (λ b, ∃ n l, shape (text b) = [n; l]
                                     ∧ shape (label b) = [n])
                   (generated limit data_iter)).
  { unfold generated. destruct limit as [l|]; [|done].
    case_decide; [|done]. by apply Forall_take. }
  clear Hall. revert Hsub. generalize (generated limit data_iter).
  intros batches Hall.
  assert (Hgen : ∀ g o ls,
             length g = length o → length o = length ls →
             gen_all vocab batches (g, o, ls) = Ok (gen, org, labs) →
             length gen = length org ∧ length org = length labs).
  { induction Hall as [|b batches (n & l & Ht & Hl) _ IH]; intros g o ls Hgo Hol.
    - by intros [= <- <- <-].
    - cbn [generate_batches].
      destruct (gen_one vocab b (g, o, ls)) as [[[g1 o1] l1]|] eqn:Hb; [|done].
      rewrite bind_Ok. apply IH.
      all: unfold generate_batch in Hb;
        destruct (make_masks _ _) as [[src_mask trg_mask]|]; [|done];
        rewrite bind_Ok in Hb;
        destruct (model_gen _ _ _) as [preds|] eqn:Hp; [|done];
        rewrite bind_Ok in Hb;
        destruct (Hmodel _ _ _ _ n l Ht Hp) as (l' & v & Hps);
        destruct (argmax_last lt preds) as [ids|] eqn:Hids; [|done];
        rewrite bind_Ok in Hb;
        pose proof (argmax_last_shape lt preds ids n [l'] v Hps Hids) as His;
        destruct (tensor2text vocab ids) as [tg|] eqn:Htg; [|done];
        rewrite bind_Ok in Hb;
        destruct (tensor2text vocab (text b)) as [to|] eqn:Hto; [|done];
        rewrite bind_Ok in Hb;
        destruct (tolist_items (label b)) as [items|] eqn:Hit; [|done];
        rewrite bind_Ok in Hb; injection Hb as <- <- <-;
        rewrite !length_app;
        pose proof (tensor2text_length vocab ids tg n [l'] His Htg);
        pose proof (tensor2text_length vocab (text b) to n [l] Ht Hto);
        pose proof (np_iter_length (label b) items n [] Hl Hit); lia. }
  by apply Hgen.
Qed.

End GenerateExtra.

Lemma generate_sentences_limit_witness :
  Sample.generate_sentences [Sample.batch0; Sample.batch0] Sample.vocab (Some 1%Z)
  = Sample.generate_sentences [Sample.batch0] Sample.vocab None ∧
  Sample.generate_sentences [Sample.batch0; Sample.batch0] Sample.vocab (Some 0%Z)
  = Sample.generate_sentences [Sample.batch0; Sample.batch0] Sample.vocab None.
Proof.
  split.
  - apply (generate_sentences_limit Z.ltb Sample.model_gen Sample.make_masks
             [Sample.batch0; Sample.batch0] Sample.vocab 1). lia.
  - apply (generate_sentences_limit Z.ltb Sample.model_gen Sample.make_masks
             [Sample.batch0; Sample.batch0] Sample.vocab 0). lia.
Defined.

Lemma generate_sentences_columns_aligned_witness :
  ∃ gen org labs,
    Sample.generate_sentences [Sample.batch0; Sample.batch0] Sample.vocab None
    = Ok (gen, org, labs) ∧
    length gen = length org ∧ length org = length labs.
Proof.
  eexists _, _, _. split; [by vm_compute|].
  eapply (generate_sentences_columns_aligned Z.ltb Sample.model_gen
            Sample.make_masks [Sample.batch0; Sample.batch0] Sample.vocab None).
  - repeat constructor; by exists 1, 2.
  - intros src src_mask labels preds n l Hs [= <-]. simpl. rewrite Hs.
    by exists l, 6.
  - by vm_compute.
Defined.

(* ===================================================================== *)
(** ** More on the style-conditioned decoder *)

Section Rows3.
Context {A : Type}.
Implicit Types (t : tensor A).

Lemma map_concat_blocks (n d : nat) (xs : list (list A)) :
  Forall (λ x, length x = n * d) xs → map (@concat A) (map (blocks n d) xs) = xs.
Proof.
  induction 1 as [|x xs Hx _ IH]; simpl; [done|].
  by rewrite concat_blocks_all, IH.
Qed.

(** A well-formed rank-3 tensor is given by its size and its rows. *)
Lemma rows3_data t b n d :
  shape t = [b; n; d] → wf t → data t = concat (map (@concat A) (rows3 t)).
Proof.
  unfold wf, rows3. intros -> Hwf. simpl in Hwf. rewrite Nat.mul_1_r in Hwf.
  rewrite map_concat_blocks by (apply Forall_length_blocks; lia).
  symmetry. apply concat_blocks_all. lia.
Qed.

Lemma rows3_inj t t' b n d :
  shape t = [b; n; d] → wf t → shape t' = [b; n; d] → wf t' →
  rows3 t = rows3 t' → t = t'.
Proof.
  intros Hs Hwf Hs' Hwf' Hr.
  rewrite <- (tensor_eta t), <- (tensor_eta t'), Hs, Hs'.
  by rewrite (rows3_data t b n d), (rows3_data t' b n d), Hr.
Qed.

Lemma rows3_lengths t b n d :
  shape t = [b; n; d] → Forall (λ row, length row = n) (rows3 t).
Proof.
  unfold rows3. intros ->. apply Forall_fmap, Forall_forall.
  intros x _. simpl. apply length_blocks.
Qed.

Lemma removelast_cons_congr (v : list A) (row row' : list (list A)) :
  length row = length row' → removelast row = removelast row' →
  removelast (v :: row) = removelast (v :: row').
Proof.
  destruct row as [|x row], row' as [|x' row']; simpl; try done.
  intros _ ->. done.
Qed.

Lemma zip_with_prepend_congr n (vs : list (list A)) (X X' : list (list (list A))) :
  Forall (λ row, length row = n) X → Forall (λ row, length row = n) X' →
  (@removelast _ <$> X) = (@removelast _ <$> X') →
  zip_with (λ v row, removelast (v :: row)) vs X
  = zip_with (λ v row, removelast (v :: row)) vs X'.
Proof.
  intros HX. revert vs X'.
  induction HX as [|x X Hx _ IH]; intros vs X' HX' Heq;
    destruct HX' as [|x' X' Hx' HX']; try done.
  destruct vs as [|v vs]; [done|].
  injection Heq as Hhd Htl. cbn [zip_with].
  rewrite (removelast_cons_congr v x x') by (done || lia).
  f_equal. by apply IH.
Qed.

End Rows3.

Section StyleDecoderExtra.
Context {A Mask : Type}.
Variable decoder : tensor A → tensor A → Mask → Mask → result (tensor A).
Variable src_embed : tensor Z → result (tensor A).
Variable style_embed : tensor A.
Variable generator : tensor A → result (tensor A).

#[local] Abbreviation fwd := (StyleDecoder.forward decoder src_embed style_embed generator).

(** X9. [StyleDecoder.forward] never reads the last timestep of the encoder
    output nor the embedding of the last target token: two calls whose
    encoder outputs agree up to the last timestep, and whose embedded
    targets agree up to the last token, give the same result. *)
Theorem StyleDecoder_forward_ignores_last_step
    (enc_out enc_out' : tensor A) (style_preds : tensor Z)
    (src_mask tgt_mask : Mask) (tgt tgt' : tensor Z) (tgt_emb tgt_emb' : tensor A)
    (b n l d k : nat) :
  shape enc_out = [b; n; d] → wf enc_out →
  shape enc_out' = [b; n; d] → wf enc_out' →
  (@removelast _ <$> rows3 enc_out) = (@removelast _ <$> rows3 enc_out') →
  src_embed tgt = Ok tgt_emb → shape tgt_emb = [b; l; d] → wf tgt_emb →
  src_embed tgt' = Ok tgt_emb' → shape tgt_emb' = [b; l; d] → wf tgt_emb' →
  (@removelast _ <$> rows3 tgt_emb) = (@removelast _ <$> rows3 tgt_emb') →
  shape style_embed = [k; d] → wf style_embed →
  shape style_preds = [b] → wf style_preds →
  Forall (λ i, 0 ≤ i < Z.of_nat k)%Z (data style_preds) →
  fwd enc_out style_preds src_mask tgt tgt_mask
  = fwd enc_out' style_preds src_mask tgt' tgt_mask.
Proof.
  intros He Hewf He' Hewf' Herows Ht Hts Htwf Ht' Hts' Htwf' Htrows
    Hw Hwwf Hp Hpwf Hr.
  destruct (style_token_ok _ _ _ _ _ Hw Hwwf Hp Hpwf Hr) as (Hs & Hswf & Hbl).
  set (s := Tensor [b; 1; d] (concat (embedding_vectors style_embed style_preds))) in *.
  destruct (cat_before_drop_last enc_out s b n d He Hewf eq_refl Hswf)
    as (m & Hm & Hms & Hmwf & Hmrows).
  destruct (cat_before_drop_last enc_out' s b n d He' Hewf' eq_refl Hswf)
    as (m' & Hm' & Hms' & Hmwf' & Hmrows').
  destruct (cat_before_drop_last tgt_emb s b l d Hts Htwf eq_refl Hswf)
    as (g & Hg & Hgs & Hgwf & Hgrows).
  destruct (cat_before_drop_last tgt_emb' s b l d Hts' Htwf' eq_refl Hswf)
    as (g' & Hg' & Hgs' & Hgwf' & Hgrows').
  assert (Hmm : m = m').
  { apply (rows3_inj m m' b n d); try done. rewrite Hmrows, Hmrows'.
    apply (zip_with_prepend_congr n); try done; by apply (rows3_lengths _ b n d). }
  assert (Hgg : g = g').
  { apply (rows3_inj g g' b l d); try done. rewrite Hgrows, Hgrows'.
    apply (zip_with_prepend_congr l); try done; by apply (rows3_lengths _ b l d). }
  unfold StyleDecoder.forward.
  destruct (Embedding_forward style_embed style_preds) as [e|]; [|done].
  rewrite bind_Ok in Hs. rewrite !bind_Ok, Hs, !bind_Ok.
  replace (ndimension s) with 3 by done.
  rewrite !(decide_False (P:=(3 = 1))) by done.
  rewrite !(decide_False (P:=(3 = 2))) by done. rewrite !bind_Ok.
  destruct (cat_dim1 s enc_out) as [m0|]; [|done].
  destruct (cat_dim1 s enc_out') as [m0'|]; [|done].
  rewrite bind_Ok in Hm, Hm'. rewrite !bind_Ok, Hm, Hm', !bind_Ok, Ht, Ht', !bind_Ok.
  destruct (cat_dim1 s tgt_emb) as [t0|]; [|done].
  destruct (cat_dim1 s tgt_emb') as [t0'|]; [|done].
  rewrite bind_Ok in Hg, Hg'. rewrite !bind_Ok, Hg, Hg', !bind_Ok.
  by rewrite Hmm, Hgg.
Qed.

Lemma Embedding_forward_IndexError (w : tensor A) (idx : tensor Z) k d :
  shape w = [k; d] →
  Exists (λ i, ¬ (0 ≤ i < Z.of_nat k)%Z) (data idx) →
  Embedding_forward w idx = Raise IndexError.
Proof.
  intros Hw Hex. unfold Embedding_forward. rewrite Hw.
  assert (Hm : mapM (embedding_row w) (data idx) = Raise IndexError).
  { induction (data idx) as [|i l IH]; [by apply Exists_nil in Hex|].
    rewrite mapM_cons_result.
    destruct (decide (0 ≤ i < Z.of_nat k)%Z) as [Hi|Hi].
    - rewrite (embedding_row_ok w k d i Hw Hi), bind_Ok.
      apply Exists_cons in Hex as [Hex|Hex]; [done|]. by rewrite IH.
    - assert (Hrow : embedding_row w i = Raise IndexError)
        by (unfold embedding_row; rewrite Hw; by rewrite decide_False).
      by rewrite Hrow. }
  by rewrite Hm.
Qed.

(** X10. [StyleDecoder.forward] raises [IndexError], before embedding the
    target or running the decoder, when a style label lies outside the
    style table; with valid labels it raises [RuntimeError] when the number
    of labels differs from the number of examples of the encoder output. *)
Theorem StyleDecoder_forward_rejects
    (enc_out : tensor A) (style_preds : tensor Z)
    (src_mask tgt_mask : Mask) (tgt : tensor Z) (k d : nat) :
  shape style_embed = [k; d] →
  (Exists (λ i, ¬ (0 ≤ i < Z.of_nat k)%Z) (data style_preds) →
   fwd enc_out style_preds src_mask tgt tgt_mask = Raise IndexError) ∧
  (∀ b b' n,
      wf style_embed → shape style_preds = [b'] → wf style_preds →
      Forall (λ i, 0 ≤ i < Z.of_nat k)%Z (data style_preds) →
      shape enc_out = [b; n; d] → b' ≠ b →
      fwd enc_out style_preds src_mask tgt tgt_mask = Raise RuntimeError).
Proof.
  intros Hw. split.
  - intros Hex. unfold StyleDecoder.forward.
    by rewrite (Embedding_forward_IndexError style_embed style_preds k d Hw Hex).
  - intros b b' n Hwwf Hp Hpwf Hr He Hne.
    destruct (style_token_ok _ _ _ _ _ Hw Hwwf Hp Hpwf Hr) as (Hs & _ & _).
    set (s := Tensor [b'; 1; d] _) in *.
    unfold StyleDecoder.forward.
    destruct (Embedding_forward style_embed style_preds) as [e|]; [|done].
    rewrite bind_Ok in Hs. rewrite !bind_Ok, Hs, !bind_Ok.
    replace (ndimension s) with 3 by done.
    rewrite (decide_False (P:=(3 = 1))) by done.
    rewrite (decide_False (P:=(3 = 2))) by done. rewrite bind_Ok.
    assert (Hcat : cat_dim1 s enc_out = Raise RuntimeError).
    { unfold cat_dim1. rewrite He. simpl.
      rewrite decide_False; [done|]. intros [? _]. done. }
    by rewrite Hcat.
Qed.

(** X11. A single style label handed over as a 0-d tensor is treated as a
    batch of one label: the rank branch of [forward] turns its embedding
    into the same one-step sequence, so both calls give the same result. *)
Theorem StyleDecoder_forward_scalar_label
    (enc_out : tensor A) (i : Z) (src_mask tgt_mask : Mask) (tgt : tensor Z)
    (k d : nat) :
  shape style_embed = [k; d] → wf style_embed → (0 ≤ i < Z.of_nat k)%Z →
  fwd enc_out (Tensor [] [i]) src_mask tgt tgt_mask
  = fwd enc_out (Tensor [1] [i]) src_mask tgt tgt_mask.
Proof.
  intros Hw Hwwf Hi.
  destruct (style_token_scalar_label style_embed i k d Hw Hwwf Hi)
    as (a & Ha & Hnd & Hperm).
  assert (Hr : Forall (λ i, 0 ≤ i < Z.of_nat k)%Z (data (Tensor [1] [i])))
    by (simpl; repeat constructor; lia).
  destruct (style_token_ok style_embed (Tensor [1] [i]) k 1 d Hw Hwwf eq_refl
              eq_refl Hr) as (Hs & _ & _).
  set (s := Tensor [1; 1; d] _) in *.
  unfold StyleDecoder.forward.
  destruct (Embedding_forward style_embed (Tensor [] [i])) as [e0|]; [|done].
  destruct (Embedding_forward style_embed (Tensor [1] [i])) as [e1|]; [|done].
  rewrite bind_Ok in Ha, Hs. rewrite !bind_Ok, Ha, Hs, !bind_Ok, Hnd.
  replace (ndimension s) with 3 by done.
  rewrite (decide_False (P:=(2 = 1))) by done.
  rewrite (decide_True (P:=(2 = 2))) by done.
  rewrite (decide_False (P:=(3 = 1))) by done.
  rewrite (decide_False (P:=(3 = 2))) by done.
  by rewrite Hperm.
Qed.

End StyleDecoderExtra.

(** X12. [StyleTransformer.encode_style] gives one step per label: for a
    batch of [b] valid labels a [(b, 1, d)] tensor holding their vectors,
    and for a single 0-d label the same as for a batch of that one label. *)
Theorem encode_style_token {A} (style_embed : tensor A) (k d : nat) :
  shape style_embed = [k; d] → wf style_embed →
  (∀ (style_labels : tensor Z) b,
      shape style_labels = [b] → wf style_labels →
      Forall (λ i, 0 ≤ i < Z.of_nat k)%Z (data style_labels) →
      StyleTransformer.encode_style style_embed style_labels
      = Ok (Tensor [b; 1; d] (concat (embedding_vectors style_embed style_labels)))) ∧
  (∀ i, (0 ≤ i < Z.of_nat k)%Z →
        StyleTransformer.encode_style style_embed (Tensor [] [i])
        = StyleTransformer.encode_style style_embed (Tensor [1] [i])).
Proof.
  intros Hw Hwwf.
  assert (Hbatch : ∀ (style_labels : tensor Z) b,
      shape style_labels = [b] → wf style_labels →
      Forall (λ i, 0 ≤ i < Z.of_nat k)%Z (data style_labels) →
      StyleTransformer.encode_style style_embed style_labels
      = Ok (Tensor [b; 1; d] (concat (embedding_vectors style_embed style_labels)))).
  { intros labels b Hp Hpwf Hr.
    destruct (style_token_ok _ _ _ _ _ Hw Hwwf Hp Hpwf Hr) as (Hs & _ & _).
    unfold StyleTransformer.encode_style.
    destruct (Embedding_forward style_embed labels) as [e|]; [|done].
    rewrite bind_Ok in Hs. by rewrite bind_Ok, Hs, bind_Ok. }
  split; [exact Hbatch|].
  intros i Hi.
  rewrite (Hbatch (Tensor [1] [i]) 1 eq_refl eq_refl)
    by (simpl; repeat constructor; lia).
  destruct (style_token_scalar_label style_embed i k d Hw Hwwf Hi)
    as (a & Ha & Hnd & Hperm).
  unfold StyleTransformer.encode_style.
  destruct (Embedding_forward style_embed (Tensor [] [i])) as [e0|]; [|done].
  rewrite bind_Ok in Ha. rewrite bind_Ok, Ha, bind_Ok, Hnd.
  rewrite (decide_False (P:=(2 = 1))) by done.
  by rewrite (decide_True (P:=(2 = 2))) by done.
Qed.

Lemma StyleDecoder_forward_ignores_last_step_witness :
  Sample.model_dec (Tensor [1; 2; 2] [1; 2; 3; 4]%Z) Sample.style_preds tt
    (Tensor [1; 2] [5; 3]%Z) tt
  = Sample.model_dec (Tensor [1; 2; 2] [1; 2; 9; 9]%Z) Sample.style_preds tt
      (Tensor [1; 2] [5; 7]%Z) tt.
Proof.
  apply (StyleDecoder_forward_ignores_last_step Sample.decoder Sample.src_embed
           Sample.style_embed (Generator.forward Sample.proj Sample.log_softmax)
           (Tensor [1; 2; 2] [1; 2; 3; 4]%Z) (Tensor [1; 2; 2] [1; 2; 9; 9]%Z)
           Sample.style_preds tt tt (Tensor [1; 2] [5; 3]%Z)
           (Tensor [1; 2] [5; 7]%Z) (Tensor [1; 2; 2] [5; 6; 3; 4]%Z)
           (Tensor [1; 2; 2] [5; 6; 7; 8]%Z) 1 2 2 2 2); try reflexivity.
  repeat constructor; simpl; lia.
Defined.

Lemma StyleDecoder_forward_rejects_witness :
  Sample.model_dec Sample.enc_out (Tensor [1] [2]%Z) tt Sample.tgt tt
  = Raise IndexError ∧
  Sample.model_dec Sample.enc_out (Tensor [2] [0; 1]%Z) tt Sample.tgt tt
  = Raise RuntimeError.
Proof.
  split.
  - apply (StyleDecoder_forward_rejects Sample.decoder Sample.src_embed
             Sample.style_embed (Generator.forward Sample.proj Sample.log_softmax)
             Sample.enc_out (Tensor [1] [2]%Z) tt tt Sample.tgt 2 2 eq_refl).
    apply Exists_cons_hd. simpl. lia.
  - apply (StyleDecoder_forward_rejects Sample.decoder Sample.src_embed
             Sample.style_embed (Generator.forward Sample.proj Sample.log_softmax)
             Sample.enc_out (Tensor [2] [0; 1]%Z) tt tt Sample.tgt 2 2 eq_refl)
      with (b := 1) (b' := 2) (n := 2); try reflexivity; [|lia].
    repeat constructor; simpl; lia.
Defined.

Lemma StyleDecoder_forward_scalar_label_witness :
  Sample.model_dec Sample.enc_out (Tensor [] [1]%Z) tt Sample.tgt tt
  = Sample.model_dec Sample.enc_out (Tensor [1] [1]%Z) tt Sample.tgt tt.
Proof.
  apply (StyleDecoder_forward_scalar_label Sample.decoder Sample.src_embed
           Sample.style_embed (Generator.forward Sample.proj Sample.log_softmax)
           Sample.enc_out 1%Z tt tt Sample.tgt 2 2); [reflexivity|reflexivity|lia].
Defined.

Lemma encode_style_token_witness :
  StyleTransformer.encode_style Sample.style_embed (Tensor [2] [1; 0]%Z)
  = Ok (Tensor [2; 1; 2] [20; 21; 10; 11]%Z) ∧
  StyleTransformer.encode_style Sample.style_embed (Tensor [] [1]%Z)
  = StyleTransformer.encode_style Sample.style_embed (Tensor [1] [1]%Z).
Proof.
  destruct (encode_style_token Sample.style_embed 2 2 eq_refl eq_refl)
    as [Hb Hs].
  split.
  - rewrite (Hb (Tensor [2] [1; 0]%Z) 2 eq_refl eq_refl); [reflexivity|].
    repeat constructor; simpl; lia.
  - apply Hs. lia.
Defined.

(* ===================================================================== *)
(** ** Sizes through the encoder and decoder stacks *)

Lemma broadcast_shapes_onto (s m : list nat) :
  Forall2 (λ x y, y = x ∨ y = 1) (rev s) (rev m) → broadcast_shapes s m = Ok s.
Proof.
  intros H. unfold broadcast_shapes.
  by rewrite (broadcast_rev_onto _ _ H), bind_Ok, rev_involutive.
Qed.

Lemma broadcast_rev_nil_l (b : list nat) : broadcast_rev [] b = Ok b.
Proof. by destruct b. Qed.

Lemma broadcast_rev_nil_r (a : list nat) : broadcast_rev a [] = Ok a.
Proof. by destruct a. Qed.

Lemma broadcast_rev_cons (x y : nat) (a b : list nat) :
  broadcast_rev (x :: a) (y :: b)
  = (r ← broadcast_rev a b;
     if decide (x = y) then Ok (x :: r)
     else if decide (x = 1) then Ok (y :: r)
     else if decide (y = 1) then Ok (x :: r)
     else Raise RuntimeError).
Proof. done. Qed.

Lemma broadcast_shapes_last_l (lead : list nat) (f : nat) :
  broadcast_shapes [f] (lead ++ [f]) = Ok (lead ++ [f]).
Proof.
  unfold broadcast_shapes. rewrite rev_unit. simpl rev.
  assert (H : broadcast_rev [f] (f :: rev lead) = Ok (f :: rev lead)).
  { rewrite broadcast_rev_cons, broadcast_rev_nil_l, bind_Ok.
    by rewrite decide_True. }
  rewrite H, bind_Ok. simpl. by rewrite rev_involutive.
Qed.

Lemma broadcast_shapes_last_r (lead : list nat) (f : nat) :
  broadcast_shapes (lead ++ [f]) [f] = Ok (lead ++ [f]).
Proof.
  unfold broadcast_shapes. rewrite rev_unit. simpl rev.
  assert (H : broadcast_rev (f :: rev lead) [f] = Ok (f :: rev lead)).
  { rewrite broadcast_rev_cons, broadcast_rev_nil_r, bind_Ok.
    by rewrite decide_True. }
  rewrite H, bind_Ok. simpl. by rewrite rev_involutive.
Qed.

Lemma broadcast_shapes_same (s : list nat) : broadcast_shapes s s = Ok s.
Proof.
  apply broadcast_shapes_onto. induction (rev s); constructor; auto.
Qed.

Lemma reduce_last_keepdim_snoc (lead : list nat) (f : nat) :
  reduce_last_keepdim (lead ++ [f]) = lead ++ [1].
Proof.
  unfold reduce_last_keepdim. rewrite removelast_last.
  by destruct lead.
Qed.

Lemma broadcast_shapes_keepdim (lead : list nat) (f : nat) :
  broadcast_shapes (lead ++ [f]) (lead ++ [1]) = Ok (lead ++ [f]).
Proof.
  apply broadcast_shapes_onto. rewrite !rev_unit. constructor; [by right|].
  induction (rev lead); constructor; auto.
Qed.

Lemma LayerNorm_forward_ok (features : nat) (lead : list nat) :
  LayerNorm.forward (LayerNorm.Build features) (lead ++ [features])
  = Ok (lead ++ [features]).
Proof.
  unfold LayerNorm.forward. cbn [LayerNorm.features].
  rewrite reduce_last_keepdim_snoc. cbv zeta.
  rewrite broadcast_shapes_keepdim, bind_Ok.
  rewrite broadcast_shapes_last_l, bind_Ok.
  rewrite broadcast_shapes_keepdim, bind_Ok.
  apply broadcast_shapes_last_r.
Qed.

(** X13. [LayerNorm] keeps the size of every tensor whose last dimension is
    [features]; a last dimension that differs from [features] (neither of
    them being 1) is a [RuntimeError]. *)
Theorem LayerNorm_keeps_size (features : nat) (lead : list nat) :
  LayerNorm.forward (LayerNorm.Build features) (lead ++ [features])
  = Ok (lead ++ [features]) ∧
  (∀ d, d ≠ features → d ≠ 1 → features ≠ 1 →
        LayerNorm.forward (LayerNorm.Build features) (lead ++ [d])
        = Raise RuntimeError).
Proof.
  split; [apply LayerNorm_forward_ok|].
  intros d Hd Hd1 Hf1. unfold LayerNorm.forward. cbn [LayerNorm.features].
  rewrite reduce_last_keepdim_snoc. cbv zeta.
  rewrite broadcast_shapes_keepdim, bind_Ok.
  assert (H : broadcast_shapes [features] (lead ++ [d]) = Raise RuntimeError).
  { unfold broadcast_shapes. rewrite rev_unit. simpl rev.
    rewrite broadcast_rev_cons, broadcast_rev_nil_l, bind_Ok.
    rewrite decide_False by done. rewrite decide_False by done.
    by rewrite decide_False by done. }
  by rewrite H.
Qed.

Lemma LayerNorm_keeps_size_witness :
  LayerNorm.forward (LayerNorm.Build 8) [2; 5; 8] = Ok [2; 5; 8] ∧
  LayerNorm.forward (LayerNorm.Build 8) [2; 5; 6] = Raise RuntimeError.
Proof.
  destruct (LayerNorm_keeps_size 8 [2; 5]) as [Hok Hbad]. split.
  - exact Hok.
  - apply (Hbad 6); lia.
Defined.

Lemma LayerNorm_rank3 (f nb l : nat) :
  LayerNorm.forward (LayerNorm.Build f) [nb; l; f] = Ok [nb; l; f].
Proof. apply (LayerNorm_forward_ok f [nb; l]). Qed.

Lemma MultiHeadedAttention_forward_rank3 (nb lq lk H K : nat)
    (mask : option (list nat)) :
  0 < nb → 0 < H → 0 < K →
  mask = None ∨ mask = Some [nb; 1; lk] ∨ mask = Some [nb; lq; lk] →
  MultiHeadedAttention.forward
    (MultiHeadedAttention.Build (Z.of_nat K) (Z.of_nat H) (Z.of_nat (H * K)))
    [nb; lq; H * K] [nb; lk; H * K] [nb; lk; H * K] mask
  = Ok [nb; lq; H * K].
Proof.
  intros Hnb HH HK Hmask. unfold MultiHeadedAttention.forward.
  set (mask' := match mask with
                | Some m => Some (take 1 m ++ 1 :: drop 1 m)
                | None => None
                end).
  assert (Hm : (match mask with
                | Some m =>
                    if decide (1 ≤ length m)
                    then Ok (Some (take 1 m ++ 1 :: drop 1 m))
                    else Raise IndexError
                | None => Ok None
                end) = Ok mask').
  { destruct Hmask as [-> | [-> | ->]]; done. }
  rewrite Hm, !bind_Ok.
  rewrite !project_shape, !bind_Ok by done.
  rewrite (attention_shape_heads nb H lq lk K mask'), bind_Ok.
  2:{ destruct Hmask as [-> | [-> | ->]]; simpl; auto. }
  cbn [MultiHeadedAttention.d_model MultiHeadedAttention.h
       MultiHeadedAttention.d_k].
  unfold transpose_shape at 1. simpl.
  rewrite view_shape_join_heads, bind_Ok by done.
  rewrite Nat2Z.id. apply linear_shape_rank3.
Qed.

Lemma MultiHeadedAttention_init_inv (h d_model : Z) attn :
  (0 < h)%Z → (0 < d_model)%Z →
  MultiHeadedAttention.init h d_model = Ok attn →
  ∃ H K, 0 < H ∧ 0 < K ∧ Z.to_nat d_model = H * K ∧
         attn = MultiHeadedAttention.Build (Z.of_nat K) (Z.of_nat H)
                  (Z.of_nat (H * K)).
Proof.
  intros Hh Hd. unfold MultiHeadedAttention.init.
  rewrite decide_False by lia.
  destruct (decide (d_model `mod` h = 0)%Z) as [Hmod|]; [|done].
  rewrite decide_False by lia. intros [= <-].
  assert (Hdk : (0 < d_model `div` h)%Z).
  { apply Z.div_str_pos. split; [done|].
    apply Z.mod_divide in Hmod; [|lia].
    apply Z.divide_pos_le in Hmod; lia. }
  assert (Hd_eq : d_model = (h * (d_model `div` h))%Z)
    by (apply Z.div_exact; [lia|done]).
  exists (Z.to_nat h), (Z.to_nat (d_model `div` h)).
  split; [lia|]. split; [lia|]. split; [nia|]. f_equal; nia.
Qed.

Lemma SublayerConnection_keeps_size (size : nat) (lead : list nat)
    (sublayer : list nat → result (list nat)) :
  sublayer (lead ++ [size]) = Ok (lead ++ [size]) →
  SublayerConnection.forward (SublayerConnection.Build size) (lead ++ [size])
    sublayer
  = Ok (lead ++ [size]).
Proof.
  intros Hsub. unfold SublayerConnection.forward.
  cbn [SublayerConnection.size].
  rewrite LayerNorm_forward_ok, bind_Ok, Hsub, bind_Ok.
  apply broadcast_shapes_same.
Qed.

Lemma PositionwiseFeedForward_rank3 (d d_ff nb l : nat) :
  PositionwiseFeedForward.forward (PositionwiseFeedForward.Build d d_ff)
    [nb; l; d]
  = Ok [nb; l; d].
Proof.
  unfold PositionwiseFeedForward.forward, linear_shape. simpl.
  rewrite decide_True by done. rewrite bind_Ok. simpl.
  by rewrite decide_True.
Qed.

Section Stacks.
Variables (H K d_ff nb : nat).
Hypothesis (HH : 0 < H) (HK : 0 < K) (Hnb : 0 < nb).

Let attn : MultiHeadedAttention.t :=
  MultiHeadedAttention.Build (Z.of_nat K) (Z.of_nat H) (Z.of_nat (H * K)).
Let ff : PositionwiseFeedForward.t := PositionwiseFeedForward.Build (H * K) d_ff.

Lemma EncoderLayer_keeps_size (l : nat) (mask : option (list nat)) :
  mask = None ∨ mask = Some [nb; 1; l] ∨ mask = Some [nb; l; l] →
  EncoderLayer.forward (EncoderLayer.Build (H * K) attn ff) [nb; l; H * K] mask
  = Ok [nb; l; H * K].
Proof.
  intros Hmask. unfold EncoderLayer.forward.
  cbn [EncoderLayer.size EncoderLayer.self_attn EncoderLayer.feed_forward].
  cbv zeta.
  rewrite (SublayerConnection_keeps_size (H * K) [nb; l]), bind_Ok
    by (by apply MultiHeadedAttention_forward_rank3).
  apply (SublayerConnection_keeps_size (H * K) [nb; l]).
  apply PositionwiseFeedForward_rank3.
Qed.

Lemma BasicEncoder_run_keeps_size (N l : nat) (mask : option (list nat)) :
  mask = None ∨ mask = Some [nb; 1; l] ∨ mask = Some [nb; l; l] →
  BasicEncoder.run (clones (EncoderLayer.Build (H * K) attn ff) N)
    [nb; l; H * K] mask
  = Ok [nb; l; H * K].
Proof.
  intros Hmask. induction N as [|N IH]; [done|].
  unfold clones in *. cbn [replicate BasicEncoder.run].
  by rewrite EncoderLayer_keeps_size, bind_Ok.
Qed.

Lemma DecoderLayer_keeps_size (l lm : nat) (src_mask tgt_mask : option (list nat)) :
  src_mask = None ∨ src_mask = Some [nb; 1; lm] ∨ src_mask = Some [nb; l; lm] →
  tgt_mask = None ∨ tgt_mask = Some [nb; 1; l] ∨ tgt_mask = Some [nb; l; l] →
  DecoderLayer.forward (DecoderLayer.Build (H * K) attn attn ff)
    [nb; l; H * K] [nb; lm; H * K] src_mask tgt_mask
  = Ok [nb; l; H * K].
Proof.
  intros Hsrc Htgt. unfold DecoderLayer.forward.
  cbn [DecoderLayer.size DecoderLayer.self_attn DecoderLayer.src_attn
       DecoderLayer.feed_forward]. cbv zeta.
  rewrite (SublayerConnection_keeps_size (H * K) [nb; l]), bind_Ok
    by (by apply MultiHeadedAttention_forward_rank3).
  rewrite (SublayerConnection_keeps_size (H * K) [nb; l]), bind_Ok
    by (by apply MultiHeadedAttention_forward_rank3).
  apply (SublayerConnection_keeps_size (H * K) [nb; l]).
  apply PositionwiseFeedForward_rank3.
Qed.

Lemma BasicDecoder_run_keeps_size (N l lm : nat)
    (src_mask tgt_mask : option (list nat)) :
  src_mask = None ∨ src_mask = Some [nb; 1; lm] ∨ src_mask = Some [nb; l; lm] →
  tgt_mask = None ∨ tgt_mask = Some [nb; 1; l] ∨ tgt_mask = Some [nb; l; l] →
  BasicDecoder.run (clones (DecoderLayer.Build (H * K) attn attn ff) N)
    [nb; l; H * K] [nb; lm; H * K] src_mask tgt_mask
  = Ok [nb; l; H * K].
Proof.
  intros Hsrc Htgt. induction N as [|N IH]; [done|].
  unfold clones in *. cbn [replicate BasicDecoder.run].
  by rewrite DecoderLayer_keeps_size, bind_Ok.
Qed.

End Stacks.

(** X14. The encoder stack keeps the size of its input.  With the attention
    module [MultiHeadedAttention(h, d_model)] and the feed-forward module
    [PositionwiseFeedForward(d_model, d_ff)] in every one of its [N]
    layers, [BasicEncoder.forward] maps a [(nb, l, d_model)] tensor to a
    tensor of the same size, for every [N] (also 0) and every [d_ff]. *)
Theorem BasicEncoder_keeps_size (h d_model : Z) (d_ff N nb l : nat)
    (attn : MultiHeadedAttention.t) (mask : option (list nat)) :
  (0 < h)%Z → (0 < d_model)%Z →
  MultiHeadedAttention.init h d_model = Ok attn →
  0 < nb →
  mask = None ∨ mask = Some [nb; 1; l] ∨ mask = Some [nb; l; l] →
  let d := Z.to_nat d_model in
  let layer := EncoderLayer.Build d attn (PositionwiseFeedForward.Build d d_ff) in
  EncoderLayer.forward layer [nb; l; d] mask = Ok [nb; l; d] ∧
  BasicEncoder.forward (BasicEncoder.init layer N) [nb; l; d] mask
  = Ok [nb; l; d].
Proof.
  intros Hh Hd Hinit Hnb Hmask d layer.
  destruct (MultiHeadedAttention_init_inv h d_model attn Hh Hd Hinit)
    as (H & K & HH & HK & HD & ->).
  subst d layer. rewrite HD. split.
  - by apply EncoderLayer_keeps_size.
  - unfold BasicEncoder.forward, BasicEncoder.init.
    cbn [BasicEncoder.layers BasicEncoder.norm EncoderLayer.size].
    rewrite BasicEncoder_run_keeps_size, bind_Ok by done.
    apply LayerNorm_rank3.
Qed.

Lemma BasicEncoder_keeps_size_witness :
  ∃ attn,
    MultiHeadedAttention.init 2 8 = Ok attn ∧
    BasicEncoder.forward
      (BasicEncoder.init
         (EncoderLayer.Build 8 attn (PositionwiseFeedForward.Build 8 32)) 6)
      [2; 5; 8] (Some [2; 1; 5])
    = Ok [2; 5; 8].
Proof.
  eexists. split; [reflexivity|].
  apply (BasicEncoder_keeps_size 2 8 32 6 2 5); [lia|lia|reflexivity|lia|].
  right. by left.
Defined.

(** X15. The decoder stack keeps the size of its target input, whatever the
    length of the memory: with the same modules in every one of its [N]
    layers, [BasicDecoder.forward] maps a [(nb, l, d_model)] target and a
    [(nb, lm, d_model)] memory to a [(nb, l, d_model)] tensor. *)
Theorem BasicDecoder_keeps_size (h d_model : Z) (d_ff N nb l lm : nat)
    (attn : MultiHeadedAttention.t) (src_mask tgt_mask : option (list nat)) :
  (0 < h)%Z → (0 < d_model)%Z →
  MultiHeadedAttention.init h d_model = Ok attn →
  0 < nb →
  src_mask = None ∨ src_mask = Some [nb; 1; lm] ∨ src_mask = Some [nb; l; lm] →
  tgt_mask = None ∨ tgt_mask = Some [nb; 1; l] ∨ tgt_mask = Some [nb; l; l] →
  let d := Z.to_nat d_model in
  let layer :=
    DecoderLayer.Build d attn attn (PositionwiseFeedForward.Build d d_ff) in
  DecoderLayer.forward layer [nb; l; d] [nb; lm; d] src_mask tgt_mask
  = Ok [nb; l; d] ∧
  BasicDecoder.forward (BasicDecoder.init layer N) [nb; l; d] [nb; lm; d]
    src_mask tgt_mask
  = Ok [nb; l; d].
Proof.
  intros Hh Hd Hinit Hnb Hsrc Htgt d layer.
  destruct (MultiHeadedAttention_init_inv h d_model attn Hh Hd Hinit)
    as (H & K & HH & HK & HD & ->).
  subst d layer. rewrite HD. split.
  - by apply DecoderLayer_keeps_size.
  - unfold BasicDecoder.forward, BasicDecoder.init.
    cbn [BasicDecoder.layers BasicDecoder.norm DecoderLayer.size].
    rewrite BasicDecoder_run_keeps_size, bind_Ok by done.
    apply LayerNorm_rank3.
Qed.

Lemma BasicDecoder_keeps_size_witness :
  ∃ attn,
    MultiHeadedAttention.init 2 8 = Ok attn ∧
    BasicDecoder.forward
      (BasicDecoder.init
         (DecoderLayer.Build 8 attn attn (PositionwiseFeedForward.Build 8 32)) 6)
      [2; 5; 8] [2; 7; 8] (Some [2; 1; 7]) (Some [2; 5; 5])
    = Ok [2; 5; 8].
Proof.
  eexists. split; [reflexivity|].
  apply (BasicDecoder_keeps_size 2 8 32 6 2 5 7); [lia|lia|reflexivity|lia| |].
  - right. by left.
  - right. by right.
Defined.

(* ===================================================================== *)
(** ** Positional encoding *)

Lemma broadcast_position (max_len c : nat) :
  broadcast_shapes [max_len; 1] [c] = Ok [max_len; c].
Proof.
  unfold broadcast_shapes. simpl rev.
  rewrite broadcast_rev_cons, broadcast_rev_nil_r, bind_Ok.
  destruct (decide (1 = c)) as [<-|]; [done|].
  by rewrite decide_True.
Qed.

Lemma setitem_shape_same (s : list nat) :
  PositionalEncoding.setitem_shape s s = Ok tt.
Proof.
  unfold PositionalEncoding.setitem_shape.
  rewrite broadcast_shapes_same, bind_Ok. by rewrite decide_True.
Qed.

Lemma setitem_shape_mismatch (n a c : nat) :
  a ≠ c → c ≠ 1 →
  PositionalEncoding.setitem_shape [n; a] [n; c] = Raise RuntimeError.
Proof.
  intros Hac Hc. unfold PositionalEncoding.setitem_shape, broadcast_shapes.
  simpl rev. rewrite !broadcast_rev_cons, broadcast_rev_nil_l, !bind_Ok.
  rewrite (decide_True (P:=(n = n))) by done. rewrite bind_Ok.
  rewrite (decide_False (P:=(a = c))) by done.
  destruct (decide (a = 1)) as [->|].
  - rewrite !bind_Ok. simpl rev. rewrite decide_False; [done|]. congruence.
  - by rewrite (decide_False (P:=(c = 1))) by done.
Qed.

(** X16. [PositionalEncoding] is built for every even [d_model] above 0;
    [d_model = 0] is a [ZeroDivisionError], an odd [d_model] of 3 or more
    a [RuntimeError] when the cosines are stored.  Once built, it
    keeps the size of every [(nb, l, d_model)] input with [l ≤ max_len] and
    raises [RuntimeError] for a longer one (when [max_len] is 2 or more). *)
Theorem PositionalEncoding_bounds (d_model max_len : nat) :
  PositionalEncoding.init 0 max_len = Raise ZeroDivisionError ∧
  (0 < d_model → Nat.Even d_model →
   PositionalEncoding.init d_model max_len
   = Ok (PositionalEncoding.Build max_len d_model)) ∧
  (3 ≤ d_model → Nat.Odd d_model →
   PositionalEncoding.init d_model max_len = Raise RuntimeError) ∧
  (∀ nb l,
      l ≤ max_len →
      PositionalEncoding.forward (PositionalEncoding.Build max_len d_model)
        [nb; l; d_model] = Ok [nb; l; d_model]) ∧
  (∀ nb l,
      max_len < l → 2 ≤ max_len →
      PositionalEncoding.forward (PositionalEncoding.Build max_len d_model)
        [nb; l; d_model] = Raise RuntimeError).
Proof.
  split; [done|]. split; [|split; [|split]].
  - intros Hpos [k ->]. unfold PositionalEncoding.init.
    rewrite decide_False by lia. rewrite bind_Ok. cbv zeta.
    rewrite !broadcast_position, !bind_Ok.
    rewrite setitem_shape_same, bind_Ok.
    replace ((2 * k + 1) / 2) with k
      by (apply (Nat.div_unique _ 2 k 1); lia).
    replace (2 * k / 2) with k
      by (apply (Nat.div_unique _ 2 k 0); lia).
    by rewrite setitem_shape_same.
  - intros Hd [k ->]. unfold PositionalEncoding.init.
    rewrite decide_False by lia. rewrite bind_Ok. cbv zeta.
    rewrite !broadcast_position, !bind_Ok.
    rewrite setitem_shape_same, bind_Ok.
    replace ((2 * k + 1 + 1) / 2) with (k + 1)
      by (apply (Nat.div_unique _ 2 (k + 1) 0); lia).
    replace ((2 * k + 1) / 2) with k
      by (apply (Nat.div_unique _ 2 k 1); lia).
    by rewrite setitem_shape_mismatch by lia.
  - intros nb l Hl. unfold PositionalEncoding.forward.
    cbn [PositionalEncoding.max_len PositionalEncoding.d_model].
    rewrite Nat.min_l by done.
    apply broadcast_shapes_onto. simpl.
    constructor; [by left|]. constructor; [by left|].
    constructor; [by right|]. constructor.
  - intros nb l Hl Hmax. unfold PositionalEncoding.forward.
    cbn [PositionalEncoding.max_len PositionalEncoding.d_model].
    rewrite Nat.min_r by lia.
    unfold broadcast_shapes. simpl rev.
    rewrite (broadcast_rev_cons d_model d_model).
    assert (Hin : broadcast_rev [l; nb] [max_len; 1] = Raise RuntimeError).
    { rewrite broadcast_rev_cons.
      assert (H1 : broadcast_rev [nb] [1] = Ok [nb]).
      { rewrite broadcast_rev_cons, broadcast_rev_nil_l, bind_Ok.
        destruct (decide (nb = 1)) as [->|]; [done|].
        by rewrite decide_True. }
      rewrite H1, bind_Ok.
      rewrite decide_False by lia. rewrite decide_False by lia.
      by rewrite decide_False by lia. }
    by rewrite Hin.
Qed.

Lemma PositionalEncoding_bounds_witness :
  PositionalEncoding.init 8 10 = Ok (PositionalEncoding.Build 10 8) ∧
  PositionalEncoding.init 7 10 = Raise RuntimeError ∧
  PositionalEncoding.forward (PositionalEncoding.Build 10 8) [2; 10; 8]
  = Ok [2; 10; 8] ∧
  PositionalEncoding.forward (PositionalEncoding.Build 10 8) [2; 11; 8]
  = Raise RuntimeError.
Proof.
  split; [|split; [|split]].
  - apply PositionalEncoding_bounds; [lia|]. exists 4. lia.
  - apply PositionalEncoding_bounds; [lia|]. exists 3. lia.
  - apply PositionalEncoding_bounds. lia.
  - apply PositionalEncoding_bounds; lia.
Defined.

(* ===================================================================== *)
(** ** Multi-head attention on a query without a length dimension *)

Lemma view_shape_numel (spec : list Z) (s s' : list nat) :
  numel_of s = numel_of s' → view_shape spec s = view_shape spec s'.
Proof. intros Hn. unfold view_shape. by rewrite Hn. Qed.

(** X17. A query of size [(nb, d_model)] does not keep its size:
    [forward] takes it for [nb] sequences of one position and returns a
    [(nb, 1, d_model)] tensor. *)
Theorem MultiHeadedAttention_rank2_query (h d_model : Z) (nb lk : nat)
    (attn : MultiHeadedAttention.t) :
  (0 < h)%Z → (0 < d_model)%Z →
  MultiHeadedAttention.init h d_model = Ok attn →
  0 < nb →
  let d := Z.to_nat d_model in
  MultiHeadedAttention.forward attn [nb; d] [nb; lk; d] [nb; lk; d] None
  = Ok [nb; 1; d].
Proof.
  intros Hh Hd Hinit Hnb d.
  destruct (MultiHeadedAttention_init_inv h d_model attn Hh Hd Hinit)
    as (H & K & HH & HK & HD & ->).
  subst d. rewrite HD.
  pose proof (MultiHeadedAttention_forward_rank3 nb 1 lk H K None Hnb HH HK
                ltac:(by left)) as Hf.
  unfold MultiHeadedAttention.forward in *. rewrite !bind_Ok in *.
  assert (Hq : MultiHeadedAttention.project
                 (MultiHeadedAttention.Build (Z.of_nat K) (Z.of_nat H)
                    (Z.of_nat (H * K))) nb [nb; H * K]
               = MultiHeadedAttention.project
                   (MultiHeadedAttention.Build (Z.of_nat K) (Z.of_nat H)
                      (Z.of_nat (H * K))) nb [nb; 1; H * K]).
  { unfold MultiHeadedAttention.project.
    cbn [MultiHeadedAttention.d_model MultiHeadedAttention.h
         MultiHeadedAttention.d_k].
    rewrite Nat2Z.id, linear_shape_rank3, bind_Ok.
    assert (Hl : linear_shape (H * K) (H * K) [nb; H * K] = Ok [nb; H * K]).
    { unfold linear_shape. simpl. by rewrite decide_True. }
    rewrite Hl, bind_Ok.
    rewrite (view_shape_numel _ [nb; H * K] [nb; 1; H * K]); [done|].
    simpl. lia. }
  by rewrite Hq.
Qed.

Lemma MultiHeadedAttention_rank2_query_witness :
  ∃ attn,
    MultiHeadedAttention.init 2 8 = Ok attn ∧
    MultiHeadedAttention.forward attn [3; 8] [3; 7; 8] [3; 7; 8] None
    = Ok [3; 1; 8].
Proof.
  eexists. split; [reflexivity|].
  apply (MultiHeadedAttention_rank2_query 2 8 3 7); [lia|lia|reflexivity|lia].
Defined.

(* ===================================================================== *)
(** ** test_random_samples *)

Lemma invert_dict_acc_notin (items : list (string * Z)) (m : gmap Z string) v :
  v ∉ items.*2 → foldl (λ m kv, <[kv.2 := kv.1]> m) m items !! v = m !! v.
Proof.
  revert m. induction items as [|[k0 v0] items IH]; intros m Hn; [done|].
  simpl in *. apply not_elem_of_cons in Hn as [Hne Hn].
  rewrite IH by done. by rewrite lookup_insert_ne.
Qed.

Lemma invert_dict_acc_Some (items : list (string * Z)) (m : gmap Z string) v k :
  foldl (λ m kv, <[kv.2 := kv.1]> m) m items !! v = Some k →
  (k, v) ∈ items ∨ m !! v = Some k.
Proof.
  revert m. induction items as [|[k0 v0] items IH]; intros m H; [by right|].
  simpl in H. destruct (IH _ H) as [Hin|Hm].
  - left. by right.
  - destruct (decide (v0 = v)) as [->|Hne].
    + rewrite lookup_insert_eq in Hm. injection Hm as ->. left. by left.
    + rewrite lookup_insert_ne in Hm by done. by right.
Qed.

(** X18. The dict [id2word] built from the items of [word2id] only holds
    what [word2id] holds, and when no two tokens share an id it inverts
    [word2id]: the id of a token leads back to the token. *)
Theorem invert_dict_round_trip (items : list (string * Z)) :
  (∀ k v, invert_dict items !! v = Some k → (k, v) ∈ items) ∧
  (NoDup items.*2 → ∀ k v, (k, v) ∈ items → invert_dict items !! v = Some k).
Proof.
  unfold invert_dict. split.
  - intros k v H. by destruct (invert_dict_acc_Some items ∅ v k H).
  - generalize (∅ : gmap Z string).
    induction items as [|[k0 v0] items IH]; intros m Hnd k v Hin.
    + by apply elem_of_nil in Hin.
    + simpl in *. apply NoDup_cons in Hnd as [Hn Hnd].
      apply elem_of_cons in Hin as [[= -> ->]|Hin].
      * rewrite invert_dict_acc_notin by done. apply lookup_insert_eq.
      * by apply IH.
Qed.

Lemma invert_dict_round_trip_witness :
  invert_dict [("<unk>", 0); ("<eos>", 2); ("good", 3)]%Z !! 2%Z = Some "<eos>".
Proof.
  apply invert_dict_round_trip.
  - simpl.
    repeat (apply NoDup_cons; split;
            [rewrite ?elem_of_cons, elem_of_nil; lia|]).
    apply NoDup_nil_2.
  - rewrite !elem_of_cons. right. by left.
Defined.

Section TestRandomSamplesSpec.
Context {A Mask : Type}.
Variable lt : A → A → bool.
Variable make_masks : tensor Z → tensor Z → result (Mask * Mask).
Variable model_gen : tensor Z + tensor A → Mask → tensor Z → result (tensor A).
Variable model_cls : tensor Z + tensor A → option Mask → result (tensor A).
Variable preds_embedding_cosine_similarity : tensor A → result (tensor A).
Variable word2id : list (string * Z).
Variable eos_id : Z.
Variable src_embed : option (tensor Z → result (tensor A)).
Variable transfer_style trans_cls embed_preds : bool.

#[local] Abbreviation run_samples decode_func :=
  (test_random_samples lt make_masks model_gen model_cls
     preds_embedding_cosine_similarity word2id eos_id src_embed decode_func
     transfer_style trans_cls embed_preds).
#[local] Abbreviation run_sample decode_func :=
  (sample lt make_masks model_gen model_cls
     preds_embedding_cosine_similarity word2id eos_id src_embed decode_func
     transfer_style trans_cls embed_preds).
#[local] Abbreviation original :=
  (sample_original make_masks model_gen word2id eos_id src_embed transfer_style).

(** X19. Called without a [decode_func] (the default), [test_random_samples]
    never gets past its first sample: whenever there is a batch and
    [num_samples] is not 0 the call ends in an exception after at most the
    two "Original" lines, and when nothing else fails this is the
    [UnboundLocalError] of reading [pred_label]. *)
Theorem test_random_samples_without_decode_func
    (batch : Batch) (rest : list Batch) (num_samples : Z) :
  num_samples ≠ 0%Z →
  (∃ log e, run_samples None (batch :: rest) num_samples = (log, Some e)
            ∧ length log ≤ 2) ∧
  (∀ src_sent src_label preds src_mask,
      original batch = Ok (src_sent, src_label, preds, src_mask) →
      embed_preds = false →
      run_samples None (batch :: rest) num_samples
      = (["Original: text: " +:+ src_sent; "Original: class: " +:+ src_label],
         Some UnboundLocalError)).
Proof.
  intros Hn. unfold test_random_samples. cbn [test_loop].
  rewrite decide_False by done. unfold sample. split.
  - destruct (original batch) as [[[[src_sent src_label] preds] src_mask]|e].
    + destruct (if embed_preds then _ else _) as [p|e];
        eexists _, _; (split; [reflexivity|simpl; lia]).
    + eexists _, _. split; [reflexivity|simpl; lia].
  - intros src_sent src_label preds src_mask -> ->. done.
Qed.

(** X20. With a [decode_func], a call that ends without an exception has
    logged every sample it went through in full (the two "Original" lines,
    "Style transfer output:" when the style is transferred, the two
    "Predicted" lines and an empty line), for the first [num_samples]
    batches, or for all batches when [num_samples] is negative. *)
Theorem test_random_samples_logs_every_sample
    (decode : tensor A → gmap Z string → option Z → result (string * tensor Z))
    (data_iter : list Batch) (num_samples : Z) (log : list string) :
  run_samples (Some decode) data_iter num_samples = (log, None) →
  length log
  = (if transfer_style then 6 else 5)
    * length (if decide (0 ≤ num_samples)%Z
              then take (Z.to_nat num_samples) data_iter else data_iter).
Proof.
  unfold test_random_samples. revert num_samples log.
  induction data_iter as [|batch rest IH]; intros n log.
  - intros [= <-]. simpl. rewrite take_nil. case_decide; simpl; lia.
  - cbn [test_loop]. destruct (decide (n = 0)%Z) as [->|Hn].
    + intros [= <-]. simpl. lia.
    + destruct (run_sample (Some decode) batch) as [l1 [e|]] eqn:Hs; [done|].
      destruct (test_loop _ _ _ _ _ _ _ _ _ _ _ _ (n - 1) rest) as [l2 r] eqn:Hl.
      intros [= <- ->]. rewrite length_app, (IH _ _ Hl).
      assert (Hl1 : length l1 = if transfer_style then 6 else 5).
      { unfold sample in Hs.
        destruct (original batch) as [[[[src_sent src_label] preds] src_mask]|];
          [|done].
        destruct (if embed_preds then _ else _) as [p|]; [|done].
        unfold sample_predicted in Hs.
        destruct (decode p _ _) as [[dec_sent decoded]|]; [|done].
        rewrite bind_Ok in Hs.
        destruct (match src_embed with Some _ => _ | None => _ end) as [d|];
          [|done].
        rewrite bind_Ok in Hs.
        destruct (if trans_cls then _ else _) as [c|]; [|done].
        rewrite bind_Ok in Hs.
        destruct (argmax_all lt c) as [best|]; [|done].
        rewrite bind_Ok in Hs. injection Hs as <-.
        destruct transfer_style; done. }
      rewrite Hl1.
      destruct (decide (0 ≤ n)%Z) as [Hpos|Hneg].
      * rewrite decide_True by lia.
        replace (Z.to_nat n) with (S (Z.to_nat (n - 1))) by lia. simpl. lia.
      * rewrite decide_False by lia. simpl. lia.
Qed.

End TestRandomSamplesSpec.

Lemma test_random_samples_without_decode_func_witness :
  SampleTest.test_random_samples None [Sample.batch0; Sample.batch0] 2
  = (["Original: text: food good"; "Original: class: pos"],
     Some UnboundLocalError).
Proof.
  destruct (test_random_samples_without_decode_func Z.ltb Sample.make_masks
              SampleTest.model_gen SampleTest.model_cls Ok SampleTest.word2id
              2%Z None true false false Sample.batch0 [Sample.batch0] 2
              ltac:(lia)) as [_ H].
  apply (H "food good" "pos"
           (Tensor [1; 2; 6] [0; 0; 0; 1; 0; 0; 0; 0; 0; 1; 0; 0]%Z) tt);
    [by vm_compute | reflexivity].
Defined.

Lemma test_random_samples_logs_every_sample_witness :
  ∃ log,
    SampleTest.test_random_samples (Some (greedy_decode_sent Z.ltb))
      [Sample.batch0; Sample.batch0] 1 = (log, None) ∧
    length log = 6.
Proof.
  eexists. split; [by vm_compute|].
  apply (test_random_samples_logs_every_sample Z.ltb Sample.make_masks
           SampleTest.model_gen SampleTest.model_cls Ok SampleTest.word2id 2%Z
           None true false false (greedy_decode_sent Z.ltb)
           [Sample.batch0; Sample.batch0] 1).
  by vm_compute.
Defined.

Example test_random_samples_sample :
  SampleTest.test_random_samples (Some (greedy_decode_sent Z.ltb))
    [Sample.batch0; Sample.batch0] 1
  = (["Original: text: food good"; "Original: class: pos";
      "Style transfer output:"; "Predicted: text: good good";
      "Predicted: class: pos"; "
"], None).
Proof. by vm_compute. Qed.
